(** * The sandbox timeout manager of [lib/sandbox-timeout-manager.ts]

    A shallow embedding of the class [SandboxTimeoutManager] and of the
    module-level slot [globalTimeoutManager], followed by the properties
    of the retry loop, the error classification, the renewal guard, the
    periodic check and the teardown.

    How the program is read:
    - numbers are integers ([Z]): retry counts, delays in ms, the
      threshold in minutes, clock readings;
    - a method body is a state-and-exception computation over its
      receiver and the ambient state (clock, trace of calls, armed
      timers); it runs from one state to the next without interleaving,
      and what another pending call has done shows in the state a body
      starts from (the flag [isExtending] in particular);
    - the outside is a set of oracles: the clock, the caller's
      operation (how the race of its k-th call against the timer ends)
      and the remote [setTimeout] (whether its k-th call resolves or
      rejects);
    - managers are objects on a heap, and the slot holds a reference. *)

From Stdlib Require Import ZArith String Ascii List Bool Lia QArith.
From Stdlib Require Import DecimalString.
From stdpp Require Import base option list gmap.
From stdpp Require Import strings.

Local Open Scope Z_scope.
Local Open Scope string_scope.

(** ** Strings

    Messages are strings of 8-bit characters.  [toLowerCase] folds the
    letters [A]..[Z]; every other character is left alone, which is what
    the JavaScript method does on the ASCII range.  The five keywords of
    [isTimeoutError] are ASCII, so characters outside that range never
    take part in a match. *)

Module Str.

Definition isUpper (c : ascii) : bool :=
  ((65 <=? nat_of_ascii c) && (nat_of_ascii c <=? 90))%nat.

Definition lowerChar (c : ascii) : ascii :=
  if isUpper c then ascii_of_nat (nat_of_ascii c + 32) else c.

Fixpoint toLowerCase (s : string) : string :=
  match s with
  | EmptyString => EmptyString
  | String c rest => String (lowerChar c) (toLowerCase rest)
  end.

(** [startsWith s kw]: [kw] is an initial segment of [s]. *)
Fixpoint startsWith (s kw : string) {struct kw} : bool :=
  match kw, s with
  | EmptyString, _ => true
  | String _ _, EmptyString => false
  | String k kw', String c s' =>
      if Ascii.eqb k c then startsWith s' kw' else false
  end.

(** [s.includes(kw)]: [kw] starts at some position of [s]. *)
Fixpoint includes (s kw : string) : bool :=
  startsWith s kw ||
  match s with
  | EmptyString => false
  | String _ rest => includes rest kw
  end.

(** The template literal [`${n}`] for an integer [n]. *)
Definition ofNumber (n : Z) : string :=
  NilZero.string_of_int (Z.to_int n).

(** The words of the specification.  Two characters are the same letter
    when they are equal or one is the capital of the other; [kw] occurs
    in [msg], case ignored, when a stretch of [msg] spells [kw] letter
    by letter. *)
Definition sameLetter (a b : ascii) : Prop :=
  a = b \/
  (isUpper a = true /\ nat_of_ascii b = (nat_of_ascii a + 32)%nat) \/
  (isUpper b = true /\ nat_of_ascii a = (nat_of_ascii b + 32)%nat).

Inductive sameIgnoringCase : string -> string -> Prop :=
| same_empty : sameIgnoringCase "" ""
| same_letter a b s t :
    sameLetter a b -> sameIgnoringCase s t ->
    sameIgnoringCase (String a s) (String b t).

Definition occursIgnoringCase (kw msg : string) : Prop :=
  exists pre mid post,
    msg = pre ++ mid ++ post /\ sameIgnoringCase mid kw.

End Str.

(** ** Errors *)

Record Error := mkError { message : string }.

Definition timeoutKeywords : list string :=
  ["timeout"; "502"; "not found"; "expired"; "terminated"].

Definition isTimeoutError (error : Error) : bool :=
  let errorMessage := Str.toLowerCase (message error) in
  existsb (fun keyword => Str.includes errorMessage keyword) timeoutKeywords.

(** ** Values, promises and events *)

(** What a [throw] or a rejection carries.  JavaScript lets any value
    be thrown; the program tells them apart only by what reading
    [message] off them gives:
    - [VError]: an object whose [message] is a string (an [Error]);
    - [VNull], [VUndefined]: reading a member throws;
    - [VPlain]: any other value whose [message] is [undefined], named
      by its source text: a string ['boom'], a number, an object
      without a [message] such as [{code: 502}].
    An object whose [message] is present but not a string is not among
    them. *)
Inductive JsValue :=
| VError (error : Error)
| VNull
| VUndefined
| VPlain (text : string).

(** How the race of [withTimeout] between the promise of one call of
    [operation] and its timer ends.  The promise fulfils first, rejects
    first, or the timer fires first; the last case includes a promise
    that never settles.  A rejection carries whatever value the
    operation rejected with: the cast [error as Error] of the catch
    clause checks nothing when the program runs. *)
Inductive Raced (T : Type) :=
| OpFulfilled (result : T)
| OpRejected (reason : JsValue)
| TimerFirst.

Arguments OpFulfilled {T} result.
Arguments OpRejected {T} reason.
Arguments TimerFirst {T}.

(** The caller's [operation]: what its k-th invocation (counted from 0
    over the whole trace) does. *)
Definition Operation (T : Type) := nat -> Raced T.

(** The remote handle ([sandbox: any]).  The only member the renewal
    path looks at is [setTimeout], which may be missing.  When present,
    its k-th call with a duration either resolves ([None]) or rejects
    with a value ([Some x]); the awaited call is taken to settle. *)
Record Sandbox := mkSandbox {
  setTimeout : option (nat -> Z -> option JsValue)
}.

Inductive Level := LevelLog | LevelWarn | LevelError.

(** What a run does to the outside, most recent event first.
    [EnterExtend] marks an entry into [extendSandboxTimeout]; the other
    events are calls the source makes. *)
Inductive Event :=
| Console (level : Level) (text : string) (arg : option JsValue)
| OperationCall
| RaceTimer (ms : Z)
| Sleep (ms : Z)
| SandboxSetTimeout (ms : Z) (outcome : option JsValue)
| SetInterval (id : nat) (ms : Z)
| ClearInterval (id : nat)
| EnterExtend.

Definition isOperationCall (ev : Event) : bool :=
  match ev with OperationCall => true | _ => false end.

Definition isSandboxSetTimeout (ev : Event) : bool :=
  match ev with SandboxSetTimeout _ _ => true | _ => false end.

Definition isRejectedSetTimeout (ev : Event) : bool :=
  match ev with SandboxSetTimeout _ (Some _) => true | _ => false end.

Definition isEnterExtend (ev : Event) : bool :=
  match ev with EnterExtend => true | _ => false end.

Definition isConsoleError (text : string) (ev : Event) : bool :=
  match ev with
  | Console LevelError t (Some _) => String.eqb t text
  | _ => false
  end.

Definition count (p : Event -> bool) (tr : list Event) : nat :=
  length (List.filter p tr).

(** ** Configuration *)

(** [appConfig.e2b] of [config/app.config.ts], taken as given. *)
Record E2B := mkE2B {
  timeoutMinutes : Z;
  timeoutMs : Z;
  cfgProcessTimeout : Z;
  cfgConnectionTimeout : Z;
  cfgMaxRetries : Z;
  cfgRetryDelay : Z;
  cfgAutoExtendThreshold : Z
}.

Record AppConfig := mkAppConfig { e2b : E2B }.

(** The interface [TimeoutManagerOptions]: every member is optional. *)
Record TimeoutManagerOptions := mkOptions {
  maxRetries : option Z;
  retryDelay : option Z;
  processTimeout : option Z;
  connectionTimeout : option Z;
  autoExtendThreshold : option Z
}.

(** [this.options] after the constructor's spread: every member has a
    number, the caller's or the default. *)
Record Options := mkResolved {
  optMaxRetries : Z;
  optRetryDelay : Z;
  optProcessTimeout : Z;
  optConnectionTimeout : Z;
  optAutoExtendThreshold : Z
}.

(** ** Objects and the ambient state *)

Record SandboxTimeoutManager := mkManager {
  sandbox : Sandbox;
  options : Options;
  lastActivity : Z;
  autoExtendTimer : option nat;
  isExtending : bool
}.

(** The world around the objects: the clock ([clock k] is what the k-th
    call of [Date.now()] returns), the trace, and the interval timers
    that are armed, each with its period. *)
Record Ambient := mkAmbient {
  clock : nat -> Z;
  clockReads : nat;
  trace : list Event;
  timers : gmap nat Z;
  nextTimer : nat
}.

(** A method runs on its receiver and the ambient state. *)
Record State := mkState {
  this : SandboxTimeoutManager;
  amb : Ambient
}.

Definition withThis (f : SandboxTimeoutManager -> SandboxTimeoutManager)
    (s : State) : State :=
  mkState (f (this s)) (amb s).

Definition withAmb (f : Ambient -> Ambient) (s : State) : State :=
  mkState (this s) (f (amb s)).

Definition pushEvent (ev : Event) (a : Ambient) : Ambient :=
  mkAmbient (clock a) (clockReads a) (ev :: trace a) (timers a) (nextTimer a).

Definition setLastActivity (t : Z) (m : SandboxTimeoutManager) :=
  mkManager (sandbox m) (options m) t (autoExtendTimer m) (isExtending m).

Definition setAutoExtendTimer (h : option nat) (m : SandboxTimeoutManager) :=
  mkManager (sandbox m) (options m) (lastActivity m) h (isExtending m).

Definition setIsExtending (b : bool) (m : SandboxTimeoutManager) :=
  mkManager (sandbox m) (options m) (lastActivity m) (autoExtendTimer m) b.


(** ** The monad of method bodies: state and exceptions *)

Inductive Completion (A : Type) :=
| Normal (a : A)
| Throw (x : JsValue).

Arguments Normal {A} a.
Arguments Throw {A} x.

Definition M (A : Type) : Type := State -> Completion A * State.

Definition ret {A} (a : A) : M A := fun s => (Normal a, s).

Definition throw {A} (x : JsValue) : M A := fun s => (Throw x, s).

Definition bind {A B} (m : M A) (k : A -> M B) : M B :=
  fun s =>
    match m s with
    | (Normal a, s') => k a s'
    | (Throw x, s') => (Throw x, s')
    end.

(** [try { m } catch (x) { handler x }] *)
Definition tryCatch {A} (m : M A) (handler : JsValue -> M A) : M A :=
  fun s =>
    match m s with
    | (Normal a, s') => (Normal a, s')
    | (Throw x, s') => handler x s'
    end.

(** [try { m } finally { release }]; the [finally] block of this file is
    an assignment, so the completion of [m] is the result. *)
Definition tryFinally {A} (m : M A) (release : State -> State) : M A :=
  fun s => let '(c, s') := m s in (c, release s').

Notation "'do' x <- m ; k" := (bind m (fun x => k))
  (at level 10, x name, m at level 100, k at level 200).

Definition gets {A} (f : State -> A) : M A := fun s => (Normal (f s), s).

Definition modify (f : State -> State) : M unit := fun s => (Normal tt, f s).

Definition emit (ev : Event) : M unit := modify (withAmb (pushEvent ev)).

Definition console_log (text : string) : M unit :=
  emit (Console LevelLog text None).

Definition console_warn (text : string) : M unit :=
  emit (Console LevelWarn text None).

Definition console_error (text : string) (arg : JsValue) : M unit :=
  emit (Console LevelError text (Some arg)).

(** [Date.now()] *)
Definition dateNow : M Z :=
  fun s =>
    let a := amb s in
    (Normal (clock a (clockReads a)),
     mkState (this s)
       (mkAmbient (clock a) (S (clockReads a)) (trace a) (timers a)
          (nextTimer a))).

(** [setInterval(callback, ms)]: a fresh handle, armed with its period. *)
Definition setInterval (ms : Z) : M nat :=
  fun s =>
    let a := amb s in
    let id := nextTimer a in
    (Normal id,
     mkState (this s)
       (mkAmbient (clock a) (clockReads a) (SetInterval id ms :: trace a)
          (<[id := ms]> (timers a)) (S id))).

(** [clearInterval(id)] *)
Definition clearInterval (id : nat) : M unit :=
  fun s =>
    let a := amb s in
    (Normal tt,
     mkState (this s)
       (mkAmbient (clock a) (clockReads a) (ClearInterval id :: trace a)
          (delete id (timers a)) (nextTimer a))).

(** ** The class [SandboxTimeoutManager] *)

Inductive Step (T : Type) :=
| Return (result : T)
| Retry (lastError : JsValue).

Arguments Return {T} result.
Arguments Retry {T} lastError.

(** The object [getStatus] returns. *)
Record Status := mkStatus {
  statusLastActivity : Z;
  timeSinceLastActivity : Z;
  statusIsExtending : bool;
  autoExtendEnabled : bool
}.

(** [a > b] on exact rationals, for [timeSinceLastActivity > thresholdMs * 0.8].
    The threshold is a whole number of minutes, so [thresholdMs * 0.8] is the
    integer [48000 * minutes] and the comparison is the one on numbers. *)
Definition gtQ (a b : Q) : bool := negb (Qle_bool a b).

(** The [TypeError] of reading [message] off [null]. *)
Definition typeErrorNull : JsValue :=
  VError (mkError "Cannot read properties of null (reading 'message')").

(** The same off [undefined]. *)
Definition typeErrorUndefined : JsValue :=
  VError (mkError "Cannot read properties of undefined (reading 'message')").

(** The [TypeError] of [error.message.toLowerCase()] when [message] is
    [undefined]. *)
Definition typeErrorNoMessage : JsValue :=
  VError (mkError "Cannot read properties of undefined (reading 'toLowerCase')").

Section Methods.

Variable appConfig : AppConfig.

Definition updateLastActivity : M unit :=
  do now <- dateNow;
  modify (withThis (setLastActivity now)).

(** [operation()]: the next invocation of the caller's closure. *)
Definition invoke {T} (operation : Operation T) : M (Raced T) :=
  fun s =>
    (Normal (operation (count isOperationCall (trace (amb s)))),
     withAmb (pushEvent OperationCall) s).

Definition withTimeout {T} (promise : Raced T) (timeoutMs : Z) : M T :=
  do _ <- emit (RaceTimer timeoutMs);
  match promise with
  | OpFulfilled result => ret result
  | OpRejected reason => throw reason
  | TimerFirst =>
      throw (VError (mkError
        ("Operation timed out after " ++ Str.ofNumber timeoutMs ++ "ms")))
  end.

Definition delay (ms : Z) : M unit := emit (Sleep ms).

(** [await this.sandbox.setTimeout(ms)] *)
Definition awaitSetTimeout (method : nat -> Z -> option JsValue) (ms : Z)
    : M unit :=
  fun s =>
    let outcome := method (count isSandboxSetTimeout (trace (amb s))) ms in
    let s' := withAmb (pushEvent (SandboxSetTimeout ms outcome)) s in
    match outcome with
    | None => (Normal tt, s')
    | Some x => (Throw x, s')
    end.

Definition extendSandboxTimeout : M unit :=
  do _ <- emit EnterExtend;
  do extending <- gets (fun s => isExtending (this s));
  if extending then
    console_log "[SandboxTimeoutManager] Already extending timeout, skipping..."
  else
    do _ <- modify (withThis (setIsExtending true));
    tryFinally
      (do sb <- gets (fun s => sandbox (this s));
       match setTimeout sb with
       | Some method =>
           do _ <- awaitSetTimeout method (timeoutMs (e2b appConfig));
           do _ <- console_log
                     ("[SandboxTimeoutManager] Extended sandbox timeout to "
                      ++ Str.ofNumber (timeoutMinutes (e2b appConfig))
                      ++ " minutes");
           updateLastActivity
       | None =>
           console_warn
             "[SandboxTimeoutManager] setTimeout method not available on sandbox"
       end)
      (withThis (setIsExtending false)).

Section ExecuteWithTimeout.

Context {T : Type}.
Variable operation : Operation T.
Variable operationName : string.

(** The message of the error thrown after the last attempt. *)
Definition exhaustedMessage (maxRetries : Z) (lastError : Error) : string :=
  "Failed to execute " ++ operationName ++ " after "
  ++ Str.ofNumber maxRetries ++ " attempts. Last error: "
  ++ message lastError.

(** The [for] loop from [attempt] on.  [remaining] counts the iterations
    the guard [attempt <= maxRetries] still lets through; at [0] the loop
    is left and [throw lastError!] runs.

    The catch clause receives whatever was thrown.  Its call
    [this.isTimeoutError(error as Error)] evaluates
    [error.message.toLowerCase()]: on an [Error] this is the
    classification; on any other value it throws a [TypeError], inside
    the catch clause and outside the inner [try], so the [TypeError]
    leaves the loop. *)
Fixpoint attempts (remaining : nat) (attempt : Z) (lastError : JsValue)
    : M T :=
  match remaining with
  | O => throw lastError
  | S remaining' =>
      do opts <- gets (fun s => options (this s));
      do step <-
        tryCatch
          (do _ <- console_log
                     ("[SandboxTimeoutManager] Executing " ++ operationName
                      ++ " (attempt " ++ Str.ofNumber attempt ++ "/"
                      ++ Str.ofNumber (optMaxRetries opts) ++ ")");
           do _ <- updateLastActivity;
           do promise <- invoke operation;
           do result <- withTimeout promise (optProcessTimeout opts);
           do _ <- console_log
                     ("[SandboxTimeoutManager] " ++ operationName
                      ++ " completed successfully");
           ret (Return result))
          (fun error =>
           do _ <- console_error
                     ("[SandboxTimeoutManager] " ++ operationName
                      ++ " failed (attempt " ++ Str.ofNumber attempt ++ "):")
                     error;
           match error with
           | VNull => throw typeErrorNull
           | VUndefined => throw typeErrorUndefined
           | VPlain _ => throw typeErrorNoMessage
           | VError lastError =>
               do _ <-
                 (if isTimeoutError lastError then
                    do _ <- console_log
                      "[SandboxTimeoutManager] Timeout detected, attempting to extend sandbox...";
                    tryCatch
                      (do _ <- extendSandboxTimeout;
                       console_log
                         "[SandboxTimeoutManager] Sandbox timeout extended successfully")
                      (fun extendError =>
                       console_error
                         "[SandboxTimeoutManager] Failed to extend sandbox timeout:"
                         extendError)
                  else ret tt);
               if (attempt =? optMaxRetries opts)%Z then
                 throw (VError (mkError
                   (exhaustedMessage (optMaxRetries opts) lastError)))
               else
                 do _ <- console_log
                           ("[SandboxTimeoutManager] Waiting "
                            ++ Str.ofNumber (optRetryDelay opts)
                            ++ "ms before retry...");
                 do _ <- delay (optRetryDelay opts);
                 ret (Retry error)
           end);
      match step with
      | Return result => ret result
      | Retry error => attempts remaining' (attempt + 1) error
      end
  end.

Definition executeWithTimeout : M T :=
  do opts <- gets (fun s => options (this s));
  attempts (Z.to_nat (optMaxRetries opts)) 1 VNull.

End ExecuteWithTimeout.

Definition getStatus : M Status :=
  do last <- gets (fun s => lastActivity (this s));
  do now <- dateNow;
  do extending <- gets (fun s => isExtending (this s));
  do timer <- gets (fun s => autoExtendTimer (this s));
  ret (mkStatus last (now - last) extending
         match timer with Some _ => true | None => false end).

Definition cleanup : M unit :=
  do timer <- gets (fun s => autoExtendTimer (this s));
  match timer with
  | Some id =>
      do _ <- clearInterval id;
      modify (withThis (setAutoExtendTimer None))
  | None => ret tt
  end.

(** The callback [startAutoExtendTimer] hands to [setInterval]. *)
Definition autoExtendTick : M unit :=
  tryCatch
    (do now <- dateNow;
     do last <- gets (fun s => lastActivity (this s));
     do opts <- gets (fun s => options (this s));
     let timeSinceLastActivity := now - last in
     let thresholdMs := optAutoExtendThreshold opts * 60 * 1000 in
     if gtQ (inject_Z timeSinceLastActivity)
            (Qmult (inject_Z thresholdMs) (8 # 10)) then
       do _ <- console_log
                 "[SandboxTimeoutManager] Auto-extending sandbox timeout...";
       extendSandboxTimeout
     else ret tt)
    (fun error =>
     console_error "[SandboxTimeoutManager] Auto-extend failed:" error).

Definition startAutoExtendTimer : M unit :=
  do opts <- gets (fun s => options (this s));
  if negb (optAutoExtendThreshold opts =? 0)%Z then
    let checkInterval :=
      Z.min (optAutoExtendThreshold opts * 60 * 1000 / 2) 60000 in
    do id <- setInterval checkInterval;
    do _ <- modify (withThis (setAutoExtendTimer (Some id)));
    console_log
      ("[SandboxTimeoutManager] Auto-extend timer started (checking every "
       ++ Str.ofNumber checkInterval ++ "ms)")
  else ret tt.

(** The spread [{ ...defaults, ...options }] of the constructor. *)
Definition resolveOptions (given : TimeoutManagerOptions) : Options :=
  mkResolved
    (default (cfgMaxRetries (e2b appConfig)) (maxRetries given))
    (default (cfgRetryDelay (e2b appConfig)) (retryDelay given))
    (default (cfgProcessTimeout (e2b appConfig)) (processTimeout given))
    (default (cfgConnectionTimeout (e2b appConfig)) (connectionTimeout given))
    (default (cfgAutoExtendThreshold (e2b appConfig))
       (autoExtendThreshold given)).

(** [new SandboxTimeoutManager(sandbox, options)]: the field
    initialisers ([lastActivity = Date.now()], no timer, not extending),
    then the constructor's body. *)
Definition construct (sb : Sandbox) (given : TimeoutManagerOptions)
    (a : Ambient) : State :=
  let fresh :=
    mkState (mkManager sb (resolveOptions given) 0 None false) a in
  snd ((do _ <- updateLastActivity; startAutoExtendTimer) fresh).

End Methods.

(** ** The module: objects by reference and the slot [globalTimeoutManager] *)

(** Managers are objects; a reference is an address of the heap.  The
    slot holds a reference or [null]. *)
Record Runtime := mkRuntime {
  heap : gmap nat SandboxTimeoutManager;
  globalTimeoutManager : option nat;
  ambient : Ambient
}.

(** [r.method()]: run the method on the object at [r] and store the
    object back.  References of a JavaScript program never dangle; the
    [None] case is a runtime without the object. *)
Definition callOn {A} (r : nat) (method : M A) (rt : Runtime)
    : option (Completion A) * Runtime :=
  match heap rt !! r with
  | Some obj =>
      let '(c, s) := method (mkState obj (ambient rt)) in
      (Some c,
       mkRuntime (<[r := this s]> (heap rt)) (globalTimeoutManager rt) (amb s))
  | None => (None, rt)
  end.

Definition createTimeoutManager (appConfig : AppConfig) (sb : Sandbox)
    (given : TimeoutManagerOptions) (rt : Runtime) : nat * Runtime :=
  let r := fresh (dom (heap rt)) in
  let s := construct appConfig sb given (ambient rt) in
  (r, mkRuntime (<[r := this s]> (heap rt)) (globalTimeoutManager rt) (amb s)).

Definition getGlobalTimeoutManager (rt : Runtime) : option nat :=
  globalTimeoutManager rt.

(** The state in which [setGlobalTimeoutManager] reaches its assignment. *)
Definition cleanupPrevious (rt : Runtime) : Runtime :=
  match globalTimeoutManager rt with
  | Some previous => snd (callOn previous cleanup rt)
  | None => rt
  end.

Definition setGlobalTimeoutManager (manager : option nat) (rt : Runtime)
    : Runtime :=
  let rt' := cleanupPrevious rt in
  mkRuntime (heap rt') manager (ambient rt').

(** ** Observations on a run *)

(** Invocations of the caller's operation recorded so far. *)
Definition ops (s : State) : nat := count isOperationCall (trace (amb s)).

(** Entries into [extendSandboxTimeout] recorded so far. *)
Definition renewals (s : State) : nat := count isEnterExtend (trace (amb s)).

(** Calls of the remote [setTimeout], and those of them that rejected. *)
Definition remoteCalls (s : State) : nat :=
  count isSandboxSetTimeout (trace (amb s)).

Definition remoteRejections (s : State) : nat :=
  count isRejectedSetTimeout (trace (amb s)).

(** The lines the two catch clauses around the renewal write. *)
Definition extendFailedText : string :=
  "[SandboxTimeoutManager] Failed to extend sandbox timeout:".

Definition autoExtendFailedText : string :=
  "[SandboxTimeoutManager] Auto-extend failed:".

Definition renewalFailureLogs (s : State) : nat :=
  count (isConsoleError extendFailedText) (trace (amb s))
  + count (isConsoleError autoExtendFailedText) (trace (amb s)).

(** The [Error] an attempt is left with when it ends in one: the
    [Error] the operation rejected with, or the error of the timer. *)
Definition failureOf {T} (timeoutMs : Z) (r : Raced T) : option Error :=
  match r with
  | OpFulfilled _ => None
  | OpRejected (VError error) => Some error
  | OpRejected _ => None
  | TimerFirst =>
      Some (mkError
        ("Operation timed out after " ++ Str.ofNumber timeoutMs ++ "ms"))
  end.

(** The attempt does not fulfil. *)
Definition fails {T} (r : Raced T) : bool :=
  match r with OpFulfilled _ => false | _ => true end.

(** The attempt ends in an [Error]: a rejection with one, or the timer. *)
Definition failsWithError {T} (r : Raced T) : bool :=
  match r with
  | OpRejected (VError _) => true
  | TimerFirst => true
  | _ => false
  end.

(** The [TypeError] that [error.message.toLowerCase()] of
    [isTimeoutError] throws on a value that is not an [Error]. *)
Definition messageTypeError (x : JsValue) : option JsValue :=
  match x with
  | VError _ => None
  | VNull => Some typeErrorNull
  | VUndefined => Some typeErrorUndefined
  | VPlain _ => Some typeErrorNoMessage
  end.

(** The same for the way an attempt ends: a rejection with a value that
    is not an [Error]. *)
Definition strayOf {T} (r : Raced T) : option JsValue :=
  match r with
  | OpRejected x => messageTypeError x
  | _ => None
  end.

(** What one stretch of a run leaves alone and what it adds: [dOps]
    invocations of the operation and [dRenew] entries into the renewal. *)
Record Stepped (dOps dRenew : nat) (s s' : State) : Prop := mkStepped {
  st_options : options (this s') = options (this s);
  st_sandbox : sandbox (this s') = sandbox (this s);
  st_timer : autoExtendTimer (this s') = autoExtendTimer (this s);
  st_extending : isExtending (this s') = isExtending (this s);
  st_timers : timers (amb s') = timers (amb s);
  st_ops : ops s' = (ops s + dOps)%nat;
  st_renewals : renewals s' = (renewals s + dRenew)%nat;
  st_remote : (remoteCalls s <= remoteCalls s' <= remoteCalls s + dRenew)%nat;
  st_absent :
    setTimeout (sandbox (this s)) = None -> remoteCalls s' = remoteCalls s;
  st_logged :
    (remoteRejections s' + renewalFailureLogs s
     = remoteRejections s + renewalFailureLogs s')%nat
}.

(** What one call of [extendSandboxTimeout] with completion [c] leaves
    alone and what it adds. *)
Record Extended (c : Completion unit) (s s' : State) : Prop := mkExtended {
  ex_options : options (this s') = options (this s);
  ex_sandbox : sandbox (this s') = sandbox (this s);
  ex_timer : autoExtendTimer (this s') = autoExtendTimer (this s);
  ex_extending : isExtending (this s') = isExtending (this s);
  ex_timers : timers (amb s') = timers (amb s);
  ex_ops : ops s' = ops s;
  ex_renewals : renewals s' = S (renewals s);
  ex_remote : (remoteCalls s <= remoteCalls s' <= S (remoteCalls s))%nat;
  ex_absent :
    setTimeout (sandbox (this s)) = None -> remoteCalls s' = remoteCalls s;
  ex_called :
    isExtending (this s) = false ->
    setTimeout (sandbox (this s)) <> None ->
    remoteCalls s' = S (remoteCalls s);
  ex_rejected :
    remoteRejections s'
    = (remoteRejections s + match c with Throw _ => 1 | Normal _ => 0 end)%nat;
  ex_logs : renewalFailureLogs s' = renewalFailureLogs s
}.

(** How many of the [n] invocations from the k-th on end in an error
    that [isTimeoutError] accepts. *)
Fixpoint renewalsDue {T} (operation : Operation T) (timeoutMs : Z)
    (k n : nat) : nat :=
  match n with
  | O => O
  | S n' =>
      (match failureOf timeoutMs (operation k) with
       | Some e => if isTimeoutError e then 1 else 0
       | None => 0
       end + renewalsDue operation timeoutMs (S k) n')%nat
  end.

(** The test of the periodic check on the state it starts from. *)
Definition tickDue (s : State) : bool :=
  gtQ (inject_Z (clock (amb s) (clockReads (amb s)) - lastActivity (this s)))
      (Qmult (inject_Z (optAutoExtendThreshold (options (this s)) * 60 * 1000))
             (8 # 10)).

(** ** Sample inputs *)

Module Sample.

(** The values the documentation gives for [appConfig.e2b]. *)
Definition config : AppConfig :=
  mkAppConfig (mkE2B 45 2700000 30000 15000 3 2000 5).

Definition ambient0 : Ambient :=
  mkAmbient (fun k => 1700000000000 + 1000 * Z.of_nat k) O [] ∅ O.

Definition bareSandbox : Sandbox := mkSandbox None.

Definition lostSandbox : Sandbox :=
  mkSandbox (Some (fun _ _ => Some (VError (mkError "sandbox was not found")))).

Definition threeRetries : TimeoutManagerOptions :=
  mkOptions (Some 3) (Some 0) None None None.

Definition noRetries : TimeoutManagerOptions :=
  mkOptions (Some 0) None None None None.

Definition fresh3 : State := construct config bareSandbox threeRetries ambient0.

Definition fresh0 : State := construct config bareSandbox noRetries ambient0.

Definition lost : State := construct config lostSandbox threeRetries ambient0.

(** A manager in the middle of a renewal. *)
Definition busy : State := withThis (setIsExtending true) lost.

(** A manager idle for 265 seconds when the clock is read next. *)
Definition idle : State :=
  withThis (setLastActivity (1700000000000 + 1000 - 265000)) lost.

Definition badGateway : Operation nat :=
  fun _ => OpRejected (VError (mkError "Error: 502 Bad Gateway")).

(** An operation that rejects with a string, [reject('boom')], every
    time. *)
Definition rejectsText : Operation nat :=
  fun _ => OpRejected (VPlain "'boom'").

(** The same once, then a result. *)
Definition textThenResult : Operation nat :=
  fun k => if (k <? 1)%nat then OpRejected (VPlain "'boom'")
           else OpFulfilled 7%nat.

Definition twiceLate : Operation nat :=
  fun k => if (k <? 2)%nat then TimerFirst else OpFulfilled 7%nat.

(** A runtime whose slot holds the manager at address 0. *)
Definition installed : Runtime :=
  mkRuntime {[ O := this fresh3 ]} (Some O) (amb fresh3).

End Sample.

(** * The rest of the class, and the route that calls it *)

(** ** Further observations on a run *)

Definition isRaceTimer (ev : Event) : bool :=
  match ev with RaceTimer _ => true | _ => false end.

Definition isRaceTimerOf (ms : Z) (ev : Event) : bool :=
  match ev with RaceTimer m => (m =? ms)%Z | _ => false end.

Definition isSleep (ev : Event) : bool :=
  match ev with Sleep _ => true | _ => false end.

Definition isSleepOf (ms : Z) (ev : Event) : bool :=
  match ev with Sleep m => (m =? ms)%Z | _ => false end.

Definition isClearInterval (ev : Event) : bool :=
  match ev with ClearInterval _ => true | _ => false end.

(** [lastActivity] is the latest reading of the clock. *)
Definition stamped (s : State) : Prop :=
  exists k,
    clockReads (amb s) = S k /\ lastActivity (this s) = clock (amb s) k.

(** What a stretch of [d] attempts with [dSleep] waits adds to the
    trace: one race timer of [processTimeout] ms per attempt, one sleep
    of [retryDelay] ms per wait, and at least one reading of the clock
    per attempt. *)
Record Paced (d dSleep : nat) (s s' : State) : Prop := mkPaced {
  pc_options : options (this s') = options (this s);
  pc_clock : clock (amb s') = clock (amb s);
  pc_reads : (clockReads (amb s) + d <= clockReads (amb s'))%nat;
  pc_ops : ops s' = (ops s + d)%nat;
  pc_race :
    count isRaceTimer (trace (amb s'))
    = (count isRaceTimer (trace (amb s)) + d)%nat;
  pc_raceOf :
    count (isRaceTimerOf (optProcessTimeout (options (this s)))) (trace (amb s'))
    = (count (isRaceTimerOf (optProcessTimeout (options (this s))))
         (trace (amb s)) + d)%nat;
  pc_sleep :
    count isSleep (trace (amb s'))
    = (count isSleep (trace (amb s)) + dSleep)%nat;
  pc_sleepOf :
    count (isSleepOf (optRetryDelay (options (this s)))) (trace (amb s'))
    = (count (isSleepOf (optRetryDelay (options (this s)))) (trace (amb s))
       + dSleep)%nat
}.




(** A renewal entered in [s] reaches the remote method and the method
    resolves. *)
Definition renewalResolves (cfg : AppConfig) (s : State) : bool :=
  negb (isExtending (this s)) &&
  match setTimeout (sandbox (this s)) with
  | Some method =>
      match method (remoteCalls s) (timeoutMs (e2b cfg)) with
      | None => true
      | Some _ => false
      end
  | None => false
  end.

(** ** Calls that go through [executeWithTimeout] *)

(** A property value of an options object. *)
Inductive JsProp :=
| PNumber (n : Z)
| PString (s : string)
| PBool (b : bool).

(** The code of the health check, [print("ping")]. *)
Definition pingCode : string :=
  "print(" ++ String "034" ("ping" ++ String "034" ")").

(** Forgetting the value a promise fulfils with. *)
Definition settleOnly {A} (r : Raced A) : Raced unit :=
  match r with
  | OpFulfilled _ => OpFulfilled tt
  | OpRejected error => OpRejected error
  | TimerFirst => TimerFirst
  end.

Definition healthFailedText : string :=
  "[SandboxTimeoutManager] Sandbox health check failed:".

(** [{ timeout: processTimeout, ...options }]: a member of the caller's
    object wins. *)
Definition codeOptions (timeout : Z) (callerOptions : gmap string JsProp)
    : gmap string JsProp :=
  callerOptions ∪ <["timeout" := PNumber timeout]> ∅.

(** [{ cmd, timeout: processTimeout, ...options }] *)
Definition processArgs (cmd : string) (timeout : Z)
    (callerOptions : gmap string JsProp) : gmap string JsProp :=
  callerOptions ∪ <["cmd" := PString cmd]> (<["timeout" := PNumber timeout]> ∅).

Section RemoteCalls.

Variable appConfig : AppConfig.
Context {R P : Type}.

(** [sandbox.runCode(code, opts)], [sandbox.process.start(args)] and
    [process.wait()] of the remote handle: how the race against the
    timer ends when the k-th invocation of the operation makes the
    call. *)
Variable runCode : string -> option (gmap string JsProp) -> Operation R.
Variable processStart : gmap string JsProp -> Operation P.
Variable processWait : P -> Operation unit.

(** The operation of [executeProcessWithTimeout]: start the process,
    wait for it, return it. *)
Definition processOperation (args : gmap string JsProp) : Operation P :=
  fun k =>
    match processStart args k with
    | OpFulfilled process =>
        match processWait process k with
        | OpFulfilled _ => OpFulfilled process
        | OpRejected error => OpRejected error
        | TimerFirst => TimerFirst
        end
    | OpRejected error => OpRejected error
    | TimerFirst => TimerFirst
    end.

(** The closure reads [this.options.processTimeout] when it runs; the
    options never change, so it is read once here. *)
Definition executeProcessWithTimeout (cmd : string)
    (callerOptions : gmap string JsProp) : M P :=
  do opts <- gets (fun s => options (this s));
  executeWithTimeout appConfig
    (processOperation (processArgs cmd (optProcessTimeout opts) callerOptions))
    ("process: " ++ cmd).

Definition executeCodeWithTimeout (code : string)
    (callerOptions : gmap string JsProp) : M R :=
  do opts <- gets (fun s => options (this s));
  executeWithTimeout appConfig
    (runCode code (Some (codeOptions (optProcessTimeout opts) callerOptions)))
    "code execution".

Definition isSandboxActive : M bool :=
  tryCatch
    (do _ <- executeWithTimeout appConfig
               (fun k => settleOnly (runCode pingCode None k))
               "sandbox health check";
     ret true)
    (fun error =>
     do _ <- console_error healthFailedText error;
     ret false).

End RemoteCalls.

(** ** The route [api/sandbox-health] *)

(** [global.sandboxData], with the two members the route reads. *)
Record SandboxData := mkSandboxData {
  sandboxId : option string;
  url : option string
}.

(** The globals of the route: whether [global.activeSandbox] is truthy,
    and [global.sandboxData]. *)
Record Globals := mkGlobals {
  activeSandbox : bool;
  sandboxData : option SandboxData
}.

(** [x || 'unknown'] for a string that may be missing. *)
Definition orUnknown (x : option string) : string :=
  match x with
  | Some v => if String.eqb v "" then "unknown" else v
  | None => "unknown"
  end.

Record SandboxInfo := mkSandboxInfo {
  infoSandboxId : string;
  infoUrl : string;
  hasTimeoutManager : bool;
  infoIsActive : option bool
}.

(** The JSON objects the route answers with. *)
Inductive Body :=
| BodyFailure (error : option string) (status : option string)
| BodyMessage (text : string)
| BodyHealth (isActive : bool) (status : string)
| BodyReport (info : SandboxInfo) (timeoutManager : option Status)
    (timestamp : string).

Record Response := mkResponse {
  body : Body;
  httpStatus : Z
}.

Definition healthErrorText : string := "[sandbox-health] Error:".

Definition healthCheckFailedText : string :=
  "[sandbox-health] Health check failed:".

(** [console.error(text, x)] from the route. *)
Definition logError (text : string) (x : JsValue) (rt : Runtime) : Runtime :=
  mkRuntime (heap rt) (globalTimeoutManager rt)
    (pushEvent (Console LevelError text (Some x)) (ambient rt)).

(** A method call on the manager the slot gave.  The reference of a
    running program is live; on a runtime without the object the call
    is given the completion [Throw VNull]. *)
Definition onManager {A} (r : nat) (method : M A) (rt : Runtime)
    : Completion A * Runtime :=
  match callOn r method rt with
  | (Some c, rt') => (c, rt')
  | (None, rt') => (Throw VNull, rt')
  end.

(** The [catch] of both handlers: log, then answer 500 with the message
    of the error.  Reading [message] off [null] or [undefined] throws;
    off a value without one it gives [undefined], and the member
    [error] is left out of the JSON. *)
Definition answerError (statusText : option string)
    (r : Completion Response * Runtime) : Completion Response * Runtime :=
  match r with
  | (Normal response, rt) => (Normal response, rt)
  | (Throw x, rt) =>
      let rt' := logError healthErrorText x rt in
      match x with
      | VError e =>
          (Normal (mkResponse (BodyFailure (Some (message e)) statusText) 500),
           rt')
      | VNull => (Throw typeErrorNull, rt')
      | VUndefined => (Throw typeErrorUndefined, rt')
      | VPlain _ =>
          (Normal (mkResponse (BodyFailure None statusText) 500), rt')
      end
  end.

Section Route.

Variable appConfig : AppConfig.
Context {R : Type}.
Variable runCode : string -> option (gmap string JsProp) -> Operation R.

(** [new Date(ms).toISOString()] *)
Variable toISOString : Z -> string.

(** [NextResponse.json({ ..., timestamp: new Date().toISOString() })] *)
Definition report (info : SandboxInfo) (timeoutStatus : option Status)
    (rt : Runtime) : Completion Response * Runtime :=
  let a := ambient rt in
  (Normal (mkResponse
     (BodyReport info timeoutStatus (toISOString (clock a (clockReads a))))
     200),
   mkRuntime (heap rt) (globalTimeoutManager rt)
     (mkAmbient (clock a) (S (clockReads a)) (trace a) (timers a)
        (nextTimer a))).

Definition GET (g : Globals) (rt : Runtime) : Completion Response * Runtime :=
  answerError (Some "error")
    (if negb (activeSandbox g) then
       (Normal (mkResponse (BodyFailure (Some "No active sandbox")
                                (Some "inactive"))
                  404), rt)
     else
       let timeoutManager := getGlobalTimeoutManager rt in
       let sandboxInfo :=
         mkSandboxInfo
           (orUnknown (sandboxData g ≫= sandboxId))
           (orUnknown (sandboxData g ≫= url))
           (match timeoutManager with Some _ => true | None => false end)
           None in
       match timeoutManager with
       | Some r =>
           match onManager r getStatus rt with
           | (Throw x, rt1) => (Throw x, rt1)
           | (Normal timeoutStatus, rt1) =>
               let '(isActive, rt2) :=
                 match onManager r (isSandboxActive appConfig runCode) rt1 with
                 | (Normal isActive, rt2) => (isActive, rt2)
                 | (Throw x, rt2) =>
                     (false, logError healthCheckFailedText x rt2)
                 end in
               report
                 (mkSandboxInfo (infoSandboxId sandboxInfo)
                    (infoUrl sandboxInfo) (hasTimeoutManager sandboxInfo)
                    (Some isActive))
                 (Some timeoutStatus) rt2
           end
       | None => report sandboxInfo None rt
       end).

(** [request] is what [const { action } = await request.json()] comes
    to: the string found, nothing usable ([None]), or a throw. *)
Definition POST (request : Completion (option string)) (g : Globals)
    (rt : Runtime) : Completion Response * Runtime :=
  answerError None
    (match request with
     | Throw x => (Throw x, rt)
     | Normal action =>
         if negb (activeSandbox g) then
           (Normal (mkResponse (BodyFailure (Some "No active sandbox") None) 404), rt)
         else
           let timeoutManager := getGlobalTimeoutManager rt in
           if String.eqb (default "" action) "extend_timeout" then
             match timeoutManager with
             | Some r =>
                 match onManager r (extendSandboxTimeout appConfig) rt with
                 | (Normal _, rt') =>
                     (Normal (mkResponse
                        (BodyMessage "Sandbox timeout extended successfully")
                        200), rt')
                 | (Throw x, rt') => (Throw x, rt')
                 end
             | None =>
                 (Normal (mkResponse
                    (BodyFailure (Some "Timeout manager not available") None) 400),
                  rt)
             end
           else if String.eqb (default "" action) "health_check" then
             match timeoutManager with
             | Some r =>
                 match onManager r (isSandboxActive appConfig runCode) rt with
                 | (Normal isActive, rt') =>
                     (Normal (mkResponse
                        (BodyHealth isActive
                           (if isActive then "healthy" else "unresponsive"))
                        200), rt')
                 | (Throw x, rt') => (Throw x, rt')
                 end
             | None =>
                 (Normal (mkResponse
                    (BodyFailure (Some "Timeout manager not available") None) 400),
                  rt)
             end
           else
             (Normal (mkResponse
                (BodyFailure
                   (Some "Invalid action. Supported actions: extend_timeout, health_check")
                   None) 400), rt)
     end).

End Route.

(** ** More sample inputs *)

Module Further.

Definition negativeRetries : State :=
  construct Sample.config Sample.bareSandbox
    (mkOptions (Some (-1)) None None None None) Sample.ambient0.

Definition noThreshold : TimeoutManagerOptions :=
  mkOptions None None None None (Some 0).

Definition syntaxError : Operation nat :=
  fun _ => OpRejected (VError (mkError "invalid syntax")).


(** A sandbox that answers no call. *)
Definition deadRunCode : string -> option (gmap string JsProp) -> Operation nat :=
  fun _ _ _ => OpRejected (VError (mkError "sandbox was not found")).

(** A process that starts and then fails. *)
Definition startsFine : gmap string JsProp -> Operation nat :=
  fun _ k => OpFulfilled k.

Definition waitFails : nat -> Operation unit :=
  fun _ _ => OpRejected (VError (mkError "exit status 1")).

Definition globals : Globals :=
  mkGlobals true (Some (mkSandboxData (Some "abc123") None)).

Definition isoOfMillis (ms : Z) : string := Str.ofNumber ms.

(** Runtimes whose slot holds a manager at address 0. *)
Definition withBusy : Runtime :=
  mkRuntime {[ O := this Sample.busy ]} (Some O) (amb Sample.busy).

Definition withLost : Runtime :=
  mkRuntime {[ O := this Sample.lost ]} (Some O) (amb Sample.lost).

End Further.

(** ** Facts about strings *)

Section StringFacts.

Import Str.

Lemma toLowerCase_app (a b : string) :
  toLowerCase (a ++ b) = toLowerCase a ++ toLowerCase b.
Proof.
  induction a as [|c a IH]; simpl; [reflexivity|].
  now rewrite IH.
Qed.

Lemma startsWith_app (s kw : string) :
  startsWith s kw = true <-> exists post, s = kw ++ post.
Proof.
  revert s; induction kw as [|k kw IH]; intros s; simpl.
  - split; [intros _; now exists s | reflexivity].
  - destruct s as [|c s].
    + split; [discriminate | intros [post H]; discriminate].
    + destruct (Ascii.eqb_spec k c) as [->|Hne].
      * rewrite IH. split; intros [post H]; exists post.
        -- now rewrite H.
        -- now injection H.
      * split; [discriminate|].
        intros [post H]. injection H as H1 _. congruence.
Qed.

Lemma includes_app (s kw : string) :
  includes s kw = true <-> exists pre post, s = pre ++ kw ++ post.
Proof.
  induction s as [|c s IH].
  - simpl. rewrite orb_false_r, startsWith_app. split.
    + intros [post H]. now exists EmptyString, post.
    + intros [pre [post H]]. destruct pre; simpl in H.
      * now exists post.
      * discriminate.
  - cbn [includes]. rewrite orb_true_iff, IH, startsWith_app. split.
    + intros [[post H]|[pre [post H]]].
      * now exists EmptyString, post.
      * exists (String c pre), post. simpl. now rewrite H.
    + intros [pre [post H]]. destruct pre as [|p pre]; simpl in H.
      * left. now exists post.
      * right. injection H as _ H. now exists pre, post.
Qed.

(** Splitting a folded string where its image splits. *)
Lemma toLowerCase_split (s a b : string) :
  toLowerCase s = a ++ b ->
  exists s1 s2, s = s1 ++ s2 /\ toLowerCase s1 = a /\ toLowerCase s2 = b.
Proof.
  revert s; induction a as [|x a IH]; intros s H; simpl in H.
  - now exists EmptyString, s.
  - destruct s as [|c s]; simpl in H; [discriminate|].
    injection H as Hc Hs.
    destruct (IH _ Hs) as (s1 & s2 & -> & H1 & H2).
    exists (String c s1), s2. simpl. now rewrite Hc, H1.
Qed.

Lemma isUpper_range (c : ascii) :
  isUpper c = true <-> (65 <= nat_of_ascii c <= 90)%nat.
Proof.
  unfold isUpper. rewrite andb_true_iff, !Nat.leb_le. reflexivity.
Qed.

Lemma ascii_code_inj (a b : ascii) : nat_of_ascii a = nat_of_ascii b -> a = b.
Proof.
  intros H. rewrite <- (ascii_nat_embedding a), <- (ascii_nat_embedding b).
  now rewrite H.
Qed.

Lemma lowerChar_code (c : ascii) :
  nat_of_ascii (lowerChar c)
  = if isUpper c then (nat_of_ascii c + 32)%nat else nat_of_ascii c.
Proof.
  unfold lowerChar. destruct (isUpper c) eqn:E; [|reflexivity].
  apply isUpper_range in E. apply nat_ascii_embedding. lia.
Qed.

Lemma lowerChar_same (a b : ascii) :
  lowerChar a = lowerChar b <-> sameLetter a b.
Proof.
  split.
  - intros H. apply (f_equal nat_of_ascii) in H.
    rewrite !lowerChar_code in H. unfold sameLetter.
    destruct (isUpper a) eqn:Ea, (isUpper b) eqn:Eb.
    + left. apply ascii_code_inj. lia.
    + right. left. split; [reflexivity|]. lia.
    + right. right. split; [reflexivity|]. lia.
    + left. now apply ascii_code_inj.
  - intros [->|[[Ha Hb]|[Hb Ha]]]; [reflexivity| |];
      apply ascii_code_inj; rewrite !lowerChar_code.
    + rewrite Ha. apply isUpper_range in Ha.
      destruct (isUpper b) eqn:Eb; [apply isUpper_range in Eb|]; lia.
    + rewrite Hb. apply isUpper_range in Hb.
      destruct (isUpper a) eqn:Ea; [apply isUpper_range in Ea|]; lia.
Qed.

Lemma toLowerCase_same (s t : string) :
  toLowerCase s = toLowerCase t <-> sameIgnoringCase s t.
Proof.
  split.
  - revert t. induction s as [|a s IH]; intros [|b t] H; cbn in H;
      try discriminate; [constructor|].
    injection H as Hc Hs. constructor; [now apply lowerChar_same|now apply IH].
  - induction 1 as [|a b s t Hab _ IH]; [reflexivity|].
    cbn. f_equal; [now apply lowerChar_same|exact IH].
Qed.

Lemma includes_lowered (msg kw : string) :
  toLowerCase kw = kw ->
  includes (toLowerCase msg) kw = true <-> occursIgnoringCase kw msg.
Proof.
  intros Hkw. rewrite includes_app. unfold occursIgnoringCase. split.
  - intros (pre & post & H).
    destruct (toLowerCase_split _ _ _ H) as (s1 & s23 & -> & H1 & H23).
    destruct (toLowerCase_split _ _ _ H23) as (s2 & s3 & -> & H2 & H3).
    exists s1, s2, s3. split; [reflexivity|].
    apply toLowerCase_same. congruence.
  - intros (pre & mid & post & -> & H). apply toLowerCase_same in H.
    exists (toLowerCase pre), (toLowerCase post).
    rewrite !toLowerCase_app. congruence.
Qed.

End StringFacts.

Lemma append_nil (b : string) : "" ++ b = b.
Proof. reflexivity. Qed.

Lemma append_cons (c : ascii) (a b : string) :
  String c a ++ b = String c (a ++ b).
Proof. reflexivity. Qed.

Lemma append_assoc (a b c : string) : (a ++ b) ++ c = a ++ b ++ c.
Proof.
  induction a as [|x a IH]; [reflexivity|].
  rewrite !append_cons. now rewrite IH.
Qed.

Lemma tail_differs (a b : string) (x y : ascii) :
  x <> y -> a ++ String x ":" <> b ++ String y ":".
Proof.
  intros Hxy. revert b. induction a as [|c a IH]; intros b H.
  - destruct b as [|c [|c' [|c'' b]]];
      rewrite ?append_cons, ?append_nil in H; congruence.
  - destruct b as [|c' b]; rewrite ?append_cons, ?append_nil in H.
    + destruct a as [|d [|d' a]];
        rewrite ?append_cons, ?append_nil in H; congruence.
    + injection H as _ H. exact (IH b H).
Qed.

Lemma includes_intro (pre kw post : string) :
  Str.includes (pre ++ kw ++ post) kw = true.
Proof. apply includes_app. now exists pre, post. Qed.

(** ** Classification of errors *)

(** C3. [isTimeoutError] answers [true] exactly for the errors whose
    message contains, letter case ignored, one of "timeout", "502",
    "not found", "expired", "terminated"; it answers [false] for every
    other message, for instance "invalid syntax". *)
Theorem isTimeoutError_spec :
  (forall error : Error,
      (isTimeoutError error = true <->
       exists keyword,
         In keyword ["timeout"; "502"; "not found"; "expired"; "terminated"] /\
         Str.occursIgnoringCase keyword (message error)) /\
      (isTimeoutError error = false <->
       ~ exists keyword,
         In keyword ["timeout"; "502"; "not found"; "expired"; "terminated"] /\
         Str.occursIgnoringCase keyword (message error))) /\
  isTimeoutError (mkError "invalid syntax") = false /\
  isTimeoutError (mkError "Request TIMEOUT") = true /\
  isTimeoutError (mkError "Error: 502 Bad Gateway") = true /\
  isTimeoutError (mkError "Sandbox Not Found") = true /\
  isTimeoutError (mkError "session EXPIRED") = true /\
  isTimeoutError (mkError "process Terminated") = true.
Proof.
  assert (Hall : forall error : Error,
      isTimeoutError error = true <->
      exists keyword,
        In keyword ["timeout"; "502"; "not found"; "expired"; "terminated"] /\
        Str.occursIgnoringCase keyword (message error)).
  { intros error. unfold isTimeoutError.
    rewrite existsb_exists. fold timeoutKeywords.
    split; intros (kw & Hin & H); exists kw; (split; [exact Hin|]).
    - apply includes_lowered; [|exact H].
      simpl in Hin. intuition (subst; reflexivity).
    - apply includes_lowered; [|exact H].
      simpl in Hin. intuition (subst; reflexivity). }
  split; [|repeat split; reflexivity].
  intros error. split; [exact (Hall error)|].
  rewrite <- Hall. destruct (isTimeoutError error); split; congruence.
Qed.

(** The error of the timer of [withTimeout] says "timed out", which none
    of the keywords matches; it is accepted only through the digits of
    the duration. *)
Example timer_error_not_timeout_like :
  failureOf 30000 (@TimerFirst nat)
  = Some (mkError "Operation timed out after 30000ms") /\
  isTimeoutError (mkError "Operation timed out after 30000ms") = false /\
  isTimeoutError (mkError "Operation timed out after 5020ms") = true.
Proof. repeat split; reflexivity. Qed.

(** ** Facts about the trace *)

Lemma count_cons p ev tr :
  count p (ev :: tr) = ((if p ev then 1 else 0) + count p tr)%nat.
Proof. unfold count. simpl. destruct (p ev); reflexivity. Qed.

(** The line written for a failed attempt is none of the two lines
    written for a failed renewal. *)
Lemma failed_text_ne (name n : string) (arg : option JsValue) :
  isConsoleError extendFailedText
    (Console LevelError
       ("[SandboxTimeoutManager] " ++ name ++ " failed (attempt " ++ n ++ "):")
       arg) = false /\
  isConsoleError autoExtendFailedText
    (Console LevelError
       ("[SandboxTimeoutManager] " ++ name ++ " failed (attempt " ++ n ++ "):")
       arg) = false.
Proof.
  destruct arg as [x|]; [|split; reflexivity].
  unfold isConsoleError.
  assert (E : "[SandboxTimeoutManager] " ++ name ++ " failed (attempt " ++ n ++ "):"
            = ("[SandboxTimeoutManager] " ++ name ++ " failed (attempt " ++ n)
              ++ String ")" ":").
  { now rewrite !append_assoc. }
  rewrite E. split; apply String.eqb_neq.
  - change extendFailedText with
      ("[SandboxTimeoutManager] Failed to extend sandbox timeou" ++ String "t" ":").
    apply tail_differs. discriminate.
  - change autoExtendFailedText with
      ("[SandboxTimeoutManager] Auto-extend faile" ++ String "d" ":").
    apply tail_differs. discriminate.
Qed.

Lemma renewal_texts :
  (extendFailedText =? extendFailedText)%string = true /\
  (extendFailedText =? autoExtendFailedText)%string = false /\
  (autoExtendFailedText =? extendFailedText)%string = false /\
  (autoExtendFailedText =? autoExtendFailedText)%string = true.
Proof. repeat split; reflexivity. Qed.

(** Counting in an explicit trace. *)
Ltac counters :=
  unfold ops, renewals, remoteCalls, remoteRejections, renewalFailureLogs;
  cbn [amb this trace withAmb withThis pushEvent];
  rewrite ?count_cons; cbn.

(** Running a method body on an explicit state. *)
Ltac run :=
  unfold bind, tryCatch, tryFinally, emit, modify, gets, ret, throw,
    console_log, console_warn, console_error, updateLastActivity, dateNow,
    invoke, withTimeout, delay;
  cbn -[append Str.ofNumber isTimeoutError exhaustedMessage attempts
        extendSandboxTimeout].

(** Reducing the observations of a state built by [pushEvent]. *)
Ltac observe_in H :=
  unfold ops, renewals, remoteCalls, remoteRejections, renewalFailureLogs in H;
  cbn [amb this trace withAmb withThis pushEvent setLastActivity
       setIsExtending setAutoExtendTimer sandbox options lastActivity
       autoExtendTimer isExtending timers] in H;
  rewrite ?count_cons in H;
  cbn [isOperationCall isEnterExtend isSandboxSetTimeout isRejectedSetTimeout
       Nat.add] in H.

Ltac logs_in H :=
  rewrite ?(proj1 (failed_text_ne _ _ _)), ?(proj2 (failed_text_ne _ _ _)) in H;
  cbn [isConsoleError Nat.add] in H.

Ltac observe :=
  unfold ops, renewals, remoteCalls, remoteRejections, renewalFailureLogs;
  cbn [amb this trace withAmb withThis pushEvent setLastActivity
       setIsExtending setAutoExtendTimer sandbox options lastActivity
       autoExtendTimer isExtending timers];
  rewrite ?count_cons;
  cbn [isOperationCall isEnterExtend isSandboxSetTimeout isRejectedSetTimeout
       Nat.add].

Ltac logs :=
  rewrite ?(proj1 (failed_text_ne _ _ _)), ?(proj2 (failed_text_ne _ _ _));
  cbn [isConsoleError Nat.add];
  change "[SandboxTimeoutManager] Failed to extend sandbox timeout:"
    with extendFailedText;
  change "[SandboxTimeoutManager] Auto-extend failed:"
    with autoExtendFailedText;
  rewrite ?(proj1 renewal_texts), ?(proj1 (proj2 renewal_texts)),
    ?(proj1 (proj2 (proj2 renewal_texts))),
    ?(proj2 (proj2 (proj2 renewal_texts))).

(** Bringing the facts of one renewal into the shape [stepped] uses. *)
Ltac use_extended :=
  match goal with
  | X : Extended _ _ ?sy |- _ =>
      destruct X as [X1 X2 X3 X4 X5 X6 X7 X8 X9 Xc X10 X11];
      destruct sy as [[sb' o' la' t' ie'] [ck' cr' tr' tm' nt']];
      observe_in X1; observe_in X2; observe_in X3; observe_in X4;
      observe_in X5; observe_in X6; observe_in X7; observe_in X8;
      observe_in X9; observe_in Xc; observe_in X10; observe_in X11;
      logs_in X11
  end.

(** Closing a goal [Stepped _ _ s s'] on explicit states. *)
Ltac stepped :=
  split; observe;
  first [assumption | symmetry; assumption | reflexivity | lia | auto; fail
        | logs; lia].

(** ** The renewal, case by case *)

Lemma extend_effect cfg s :
  exists c s', extendSandboxTimeout cfg s = (c, s') /\ Extended c s s'.
Proof.
  destruct s as [[[method] o la t ie] [ck cr tr tm nt]].
  unfold extendSandboxTimeout, bind, emit, modify, gets, console_log,
    console_warn, tryFinally, updateLastActivity, dateNow, awaitSetTimeout.
  cbn. destruct ie; cbn.
  - eexists _, _. split; [reflexivity|].
    split; cbn; try reflexivity; try discriminate; try (counters; lia).
  - destruct method as [f|]; cbn.
    + destruct (f _ _) as [x|] eqn:E; cbn.
      * eexists _, _. split; [reflexivity|].
        split; cbn; try reflexivity; try discriminate; try (counters; lia).
      * eexists _, _. split; [reflexivity|].
        split; cbn; try reflexivity; try discriminate; try (counters; lia).
    + eexists _, _. split; [reflexivity|].
      split; cbn; try reflexivity; try congruence; try (counters; lia).
Qed.

Lemma extend_busy cfg s :
  isExtending (this s) = true ->
  extendSandboxTimeout cfg s
  = (Normal tt,
     withAmb
       (pushEvent
          (Console LevelLog
             "[SandboxTimeoutManager] Already extending timeout, skipping..."
             None))
       (withAmb (pushEvent EnterExtend) s)).
Proof.
  destruct s as [[sb o la t ie] am]. cbn. intros ->. reflexivity.
Qed.

Lemma extend_absent cfg s :
  isExtending (this s) = false ->
  setTimeout (sandbox (this s)) = None ->
  extendSandboxTimeout cfg s
  = (Normal tt,
     withAmb
       (pushEvent
          (Console LevelWarn
             "[SandboxTimeoutManager] setTimeout method not available on sandbox"
             None))
       (withAmb (pushEvent EnterExtend) s)).
Proof.
  destruct s as [[[m] o la t ie] am]. cbn. intros -> ->. reflexivity.
Qed.

Lemma extend_rejected cfg s method x :
  isExtending (this s) = false ->
  setTimeout (sandbox (this s)) = Some method ->
  method (remoteCalls s) (timeoutMs (e2b cfg)) = Some x ->
  extendSandboxTimeout cfg s
  = (Throw x,
     withAmb (pushEvent (SandboxSetTimeout (timeoutMs (e2b cfg)) (Some x)))
       (withAmb (pushEvent EnterExtend) s)).
Proof.
  destruct s as [[[m] o la t ie] [ck cr tr tm nt]]. unfold remoteCalls. cbn.
  intros -> -> Hm.
  unfold extendSandboxTimeout. run. unfold awaitSetTimeout.
  cbn -[append Str.ofNumber]. rewrite Hm. reflexivity.
Qed.

Lemma extend_resolved cfg s method :
  isExtending (this s) = false ->
  setTimeout (sandbox (this s)) = Some method ->
  method (remoteCalls s) (timeoutMs (e2b cfg)) = None ->
  exists s',
    extendSandboxTimeout cfg s = (Normal tt, s') /\
    isExtending (this s') = false /\
    lastActivity (this s') = clock (amb s) (clockReads (amb s)) /\
    remoteCalls s' = S (remoteCalls s).
Proof.
  destruct s as [[[m] o la t ie] [ck cr tr tm nt]]. unfold remoteCalls. cbn.
  intros -> -> Hm.
  unfold extendSandboxTimeout. run. unfold awaitSetTimeout.
  cbn -[append Str.ofNumber]. rewrite Hm. run.
  eexists. split; [reflexivity|]. cbn. auto.
Qed.

Lemma extend_releases cfg s :
  isExtending (this s) = false ->
  isExtending (this (snd (extendSandboxTimeout cfg s))) = false.
Proof.
  intros H. destruct (extend_effect cfg s) as (c & s' & E & X).
  rewrite E. cbn. rewrite (ex_extending _ _ _ X). exact H.
Qed.

Lemma extend_noop cfg s :
  setTimeout (sandbox (this s)) = None ->
  exists s',
    extendSandboxTimeout cfg s = (Normal tt, s') /\
    this s' = this s /\ remoteCalls s' = remoteCalls s /\
    clockReads (amb s') = clockReads (amb s).
Proof.
  intros Hnone. destruct (isExtending (this s)) eqn:Hbusy.
  - rewrite (extend_busy cfg s Hbusy). eexists. split; [reflexivity|].
    destruct s as [m a]. cbn. auto.
  - rewrite (extend_absent cfg s Hbusy Hnone). eexists. split; [reflexivity|].
    destruct s as [m a]. cbn. auto.
Qed.

Lemma executeWithTimeout_unfold cfg {T} (operation : Operation T) name s :
  executeWithTimeout cfg operation name s
  = attempts cfg operation name
      (Z.to_nat (optMaxRetries (options (this s)))) 1 VNull s.
Proof. reflexivity. Qed.

(** ** The loop, one iteration at a time *)

Lemma strayOf_spec {T} (r : Raced T) (x : JsValue) :
  strayOf r = Some x <->
  exists v, r = OpRejected v /\ messageTypeError v = Some x.
Proof.
  split.
  - destruct r as [v|v|]; cbn; [discriminate| |discriminate]. eauto.
  - intros (v & -> & H). exact H.
Qed.

Lemma failsWithError_fails {T} (r : Raced T) :
  failsWithError r = true -> fails r = true.
Proof. destruct r as [v|[e| | |w]|]; cbn; congruence. Qed.

Section LoopFacts.

Variable cfg : AppConfig.
Context {T : Type}.
Variable operation : Operation T.
Variable operationName : string.

Lemma attempt_fulfilled n attempt lastError s v :
  operation (ops s) = OpFulfilled v ->
  exists s',
    attempts cfg operation operationName (S n) attempt lastError s
    = (Normal v, s') /\ Stepped 1 0 s s'.
Proof.
  intros Hop. destruct s as [[sb o la t ie] [ck cr tr tm nt]].
  unfold ops in Hop. cbn in Hop.
  cbn [attempts]. run. rewrite Hop. run.
  eexists. split; [reflexivity|].
  split; cbn; try reflexivity; try (counters; lia).
Qed.

Lemma attempt_failed n attempt lastError s e :
  failureOf (optProcessTimeout (options (this s))) (operation (ops s)) = Some e ->
  exists s1,
    Stepped 1 (if isTimeoutError e then 1 else 0) s s1 /\
    attempts cfg operation operationName (S n) attempt lastError s
    = if (attempt =? optMaxRetries (options (this s)))%Z then
        (Throw (VError (mkError
           (exhaustedMessage operationName (optMaxRetries (options (this s))) e))),
         s1)
      else attempts cfg operation operationName n (attempt + 1) (VError e) s1.
Proof.
  intros Hop. destruct s as [[sb o la t ie] [ck cr tr tm nt]].
  unfold ops in Hop. cbn in Hop.
  cbn [attempts]. run.
  destruct (operation _) as [v|[e0| | |w]|]; cbn in Hop; try discriminate;
    injection Hop as <-; run.
  all: match goal with
       | |- context [isTimeoutError ?e1] => destruct (isTimeoutError e1); run
       end.
  all: try match goal with
       | |- context [extendSandboxTimeout cfg ?sx] =>
           destruct (extend_effect cfg sx) as ([[]|x] & sy & E & X);
           rewrite E; clear E; run; use_extended
       end.
  all: destruct (attempt =? optMaxRetries o)%Z; run.
  all: eexists; (split; [|reflexivity]).
  all: stepped.
Qed.

(** An attempt whose operation rejects with a value that is not an
    [Error]: the [TypeError] of the classification leaves the catch
    clause, and with it the loop. *)
Lemma attempt_stray n attempt lastError s x :
  strayOf (operation (ops s)) = Some x ->
  exists s1,
    attempts cfg operation operationName (S n) attempt lastError s
    = (Throw x, s1) /\
    Stepped 1 0 s s1.
Proof.
  intros Hop. destruct s as [[sb o la t ie] [ck cr tr tm nt]].
  unfold ops in Hop. cbn in Hop.
  cbn [attempts]. run.
  destruct (operation _) as [v|[e0| | |w]|]; cbn in Hop; try discriminate;
    injection Hop as <-; run.
  all: eexists; (split; [reflexivity|]).
  all: stepped.
Qed.

(** An attempt ends in exactly one of three ways. *)
Lemma attempt_cases timeoutMs (r : Raced T) :
  (exists v, r = OpFulfilled v) \/
  (exists e, failureOf timeoutMs r = Some e) \/
  (exists x, strayOf r = Some x /\ failureOf timeoutMs r = None).
Proof.
  destruct r as [v|[e| | |w]|]; cbn; eauto 6.
Qed.

Lemma Stepped_refl s : Stepped 0 0 s s.
Proof. split; try reflexivity; lia. Qed.

Lemma Stepped_trans a b c d s1 s2 s3 :
  Stepped a b s1 s2 -> Stepped c d s2 s3 -> Stepped (a + c) (b + d) s1 s3.
Proof.
  intros [A1 A2 A3 A4 A5 A6 A7 A8 A9 A10] [B1 B2 B3 B4 B5 B6 B7 B8 B9 B10].
  split; try congruence; try lia.
  intros Habs. rewrite B9, A9; congruence.
Qed.

Lemma fails_failureOf timeoutMs (r : Raced T) :
  failsWithError r = true -> exists e, failureOf timeoutMs r = Some e.
Proof.
  destruct r as [v|[e| | |w]|]; try discriminate; eexists; reflexivity.
Qed.

(** Every run of the loop: what it returns comes from the operation. *)
Lemma attempts_run n : forall attempt lastError s,
  n = O \/ attempt + Z.of_nat n = optMaxRetries (options (this s)) + 1 ->
  exists c s' a b,
    attempts cfg operation operationName n attempt lastError s = (c, s') /\
    Stepped a b s s' /\ (a <= n)%nat /\
    match c with
    | Normal v => exists k, operation k = OpFulfilled v
    | Throw x =>
        (n = O /\ x = lastError) \/
        (exists e k,
           failureOf (optProcessTimeout (options (this s))) (operation k) = Some e /\
           x = VError (mkError
                 (exhaustedMessage operationName
                    (optMaxRetries (options (this s))) e))) \/
        (exists k, strayOf (operation k) = Some x)
    end.
Proof.
  induction n as [|n IH]; intros attempt lastError s Hn.
  - exists (Throw lastError), s, O, O.
    split; [reflexivity|]. split; [apply Stepped_refl|]. split; [lia|now left].
  - destruct Hn as [Hn|Hn]; [discriminate|].
    destruct (failureOf (optProcessTimeout (options (this s)))
                (operation (ops s))) as [e|] eqn:He.
    + destruct (attempt_failed n attempt lastError s e He) as (s1 & St & E).
      rewrite E.
      destruct (Z.eqb_spec attempt (optMaxRetries (options (this s))))
        as [Heq|Hne].
      * eexists _, s1, 1%nat, _.
        split; [reflexivity|]. split; [exact St|]. split; [lia|].
        right. left. now exists e, (ops s).
      * destruct (IH (attempt + 1) (VError e) s1)
          as (c & s' & a & b & E' & St' & Ha & Hc).
        { right. rewrite (st_options _ _ _ _ St). lia. }
        exists c, s', (1 + a)%nat, ((if isTimeoutError e then 1 else 0) + b)%nat.
        split; [exact E'|]. split; [|split; [lia|]].
        -- eapply Stepped_trans; eauto.
        -- destruct c as [v|x]; [exact Hc|].
           rewrite (st_options _ _ _ _ St) in Hc.
           destruct Hc as [[Hz _]|Hc]; [lia|now right].
    + destruct (attempt_cases (optProcessTimeout (options (this s)))
                  (operation (ops s))) as [(v & Hop)|[(e & He')|(x & Hx & _)]];
        [|congruence|].
      * destruct (attempt_fulfilled n attempt lastError s v Hop)
          as (s' & E & St).
        exists (Normal v), s', 1%nat, O.
        split; [exact E|]. split; [exact St|]. split; [lia|now exists (ops s)].
      * destruct (attempt_stray n attempt lastError s x Hx) as (s' & E & St).
        exists (Throw x), s', 1%nat, O.
        split; [exact E|]. split; [exact St|]. split; [lia|].
        right. right. now exists (ops s).
Qed.

(** The loop when no invocation fulfils. *)
Lemma attempts_all_fail n : forall attempt lastError s,
  (forall k, failsWithError (operation k) = true) ->
  attempt + Z.of_nat n = optMaxRetries (options (this s)) + 1 ->
  exists x s',
    attempts cfg operation operationName n attempt lastError s = (Throw x, s') /\
    Stepped n
      (renewalsDue operation (optProcessTimeout (options (this s))) (ops s) n)
      s s' /\
    match n with
    | O => x = lastError
    | S n' =>
        exists e,
          failureOf (optProcessTimeout (options (this s)))
            (operation (ops s + n')%nat) = Some e /\
          x = VError (mkError
                (exhaustedMessage operationName
                   (optMaxRetries (options (this s))) e))
    end.
Proof.
  induction n as [|n IH]; intros attempt lastError s Hfail Hn.
  - exists lastError, s.
    split; [reflexivity|]. split; [apply Stepped_refl|reflexivity].
  - destruct (fails_failureOf (optProcessTimeout (options (this s)))
                _ (Hfail (ops s))) as (e & He).
    destruct (attempt_failed n attempt lastError s e He) as (s1 & St & E).
    rewrite E. cbn [renewalsDue]. rewrite He.
    destruct (Z.eqb_spec attempt (optMaxRetries (options (this s)))) as [Heq|Hne].
    + assert (n = O) by lia. subst n.
      eexists _, s1. split; [reflexivity|]. split.
      * cbn [renewalsDue]. now rewrite Nat.add_0_r.
      * exists e. now rewrite Nat.add_0_r.
    + destruct (IH (attempt + 1) (VError e) s1 Hfail) as (x & s' & E' & St' & Hx).
      { rewrite (st_options _ _ _ _ St). lia. }
      exists x, s'. split; [exact E'|].
      rewrite (st_options _ _ _ _ St), (st_ops _ _ _ _ St) in St', Hx.
      replace (ops s + 1)%nat with (S (ops s)) in St' by lia.
      split.
      * change (S n) with (1 + n)%nat. eapply Stepped_trans; eauto.
      * destruct n as [|n']; [lia|].
        replace (ops s + S n')%nat with (ops s + 1 + n')%nat by lia. exact Hx.
Qed.

End LoopFacts.

(** ** Runs of several attempts *)

Section Runs.

Variable cfg : AppConfig.
Context {T : Type}.
Variable operation : Operation T.
Variable operationName : string.

Lemma attempts_early_success N : forall n attempt lastError s v,
  (forall k, (k < N)%nat ->
     failsWithError (operation (ops s + k)%nat) = true) ->
  operation (ops s + N)%nat = OpFulfilled v ->
  (N < n)%nat ->
  attempt + Z.of_nat n = optMaxRetries (options (this s)) + 1 ->
  exists s',
    attempts cfg operation operationName n attempt lastError s = (Normal v, s') /\
    Stepped (N + 1)
      (renewalsDue operation (optProcessTimeout (options (this s))) (ops s) N)
      s s'.
Proof.
  induction N as [|N IH]; intros n attempt lastError s v Hfail Hok HN Hn.
  - destruct n as [|n]; [lia|].
    rewrite Nat.add_0_r in Hok.
    exact (attempt_fulfilled cfg operation operationName n attempt lastError s v Hok).
  - destruct n as [|n]; [lia|].
    pose proof (Hfail O ltac:(lia)) as H0. rewrite Nat.add_0_r in H0.
    destruct (fails_failureOf (optProcessTimeout (options (this s))) _ H0)
      as (e & He).
    destruct (attempt_failed cfg operation operationName n attempt lastError s e He)
      as (s1 & St & E).
    rewrite E.
    destruct (Z.eqb_spec attempt (optMaxRetries (options (this s)))) as [Heq|Hne];
      [lia|].
    pose proof (st_options _ _ _ _ St) as Ho.
    pose proof (st_ops _ _ _ _ St) as Hops.
    destruct (IH n (attempt + 1) (VError e) s1 v) as (s' & E' & St').
    + intros k Hk. rewrite Hops.
      replace (ops s + 1 + k)%nat with (ops s + S k)%nat by lia.
      apply Hfail. lia.
    + rewrite Hops. replace (ops s + 1 + N)%nat with (ops s + S N)%nat by lia.
      exact Hok.
    + lia.
    + rewrite Ho. lia.
    + exists s'. split; [exact E'|].
      rewrite Ho, Hops in St'.
      replace (ops s + 1)%nat with (S (ops s)) in St' by lia.
      cbn [renewalsDue]. rewrite He.
      change (S N + 1)%nat with (1 + (N + 1))%nat.
      eapply Stepped_trans; eauto.
Qed.


End Runs.

(** ** The periodic check, step by step *)

Lemma tickDue_iff (s : State) :
  tickDue s = true <->
  (inject_Z (optAutoExtendThreshold (options (this s)) * 60 * 1000) * (8 # 10)
   < inject_Z (clock (amb s) (clockReads (amb s)) - lastActivity (this s)))%Q.
Proof.
  unfold tickDue, gtQ. rewrite negb_true_iff, <- not_true_iff_false, Qle_bool_iff.
  split; [apply Qnot_le_lt|apply Qlt_not_le].
Qed.

Lemma tick_effect cfg s :
  exists s',
    autoExtendTick cfg s = (Normal tt, s') /\
    Stepped 0 (if tickDue s then 1 else 0) s s' /\
    (tickDue s = true -> isExtending (this s) = false ->
     setTimeout (sandbox (this s)) <> None ->
     remoteCalls s' = S (remoteCalls s)).
Proof.
  destruct s as [[sb o la t ie] [ck cr tr tm nt]].
  unfold autoExtendTick, tickDue. run.
  destruct (gtQ _ _); run.
  - match goal with
    | |- context [extendSandboxTimeout cfg ?sx] =>
        destruct (extend_effect cfg sx) as ([[]|x] & sy & E & X);
        rewrite E; clear E; run; use_extended
    end.
    all: eexists; (split; [reflexivity|]).
    all: split; [stepped|intros _; observe; exact Xc].
  - eexists; (split; [reflexivity|]). split; [stepped|discriminate].
Qed.

(** ** Sample runs *)

(** Three attempts against a sandbox whose renewal always rejects: the
    operation is invoked three times, each renewal is rejected and
    logged, and the error of the call is the one of the operation. *)
Example lost_sandbox_run :
  let run :=
    executeWithTimeout Sample.config Sample.badGateway "sandbox operation"
      Sample.lost in
  fst run
  = Throw (VError (mkError
      "Failed to execute sandbox operation after 3 attempts. Last error: Error: 502 Bad Gateway")) /\
  ops (snd run) = 3%nat /\
  renewals (snd run) = 3%nat /\
  remoteRejections (snd run) = 3%nat /\
  renewalFailureLogs (snd run) = 3%nat /\
  isExtending (this (snd run)) = false.
Proof. vm_compute. repeat split; reflexivity. Qed.

(** Two attempts lost to the timer, then a result: the errors of the
    timer trigger no renewal. *)
Example twice_late_run :
  let run :=
    executeWithTimeout Sample.config Sample.twiceLate "health check"
      Sample.lost in
  fst run = Normal 7%nat /\
  ops (snd run) = 3%nat /\
  renewals (snd run) = 0%nat /\
  count (fun ev => match ev with Sleep 0 => true | _ => false end)
    (trace (amb (snd run))) = 2%nat.
Proof. vm_compute. repeat split; reflexivity. Qed.

(** A tick on a manager idle for 265 s: one remote call, rejected here,
    logged, and the tick completes normally. *)
Example idle_tick_run :
  let run := autoExtendTick Sample.config Sample.idle in
  fst run = Normal tt /\
  renewals (snd run) = 1%nat /\
  remoteCalls (snd run) = 1%nat /\
  renewalFailureLogs (snd run) = 1%nat.
Proof. vm_compute. repeat split; reflexivity. Qed.

(** ** The retry loop *)

(** C1, amended.  An operation whose every invocation ends in an
    [Error], by rejecting with one or by losing the race against the
    timer, is invoked exactly [maxRetries] times by
    [executeWithTimeout], and the call then fails. *)
Theorem executeWithTimeout_retry_bound cfg {T} (operation : Operation T)
    (operationName : string) (s : State) :
  (forall k, failsWithError (operation k) = true) ->
  exists x s',
    executeWithTimeout cfg operation operationName s = (Throw x, s') /\
    ops s' = (ops s + Z.to_nat (optMaxRetries (options (this s))))%nat /\
    (0 <= optMaxRetries (options (this s)) ->
     Z.of_nat (ops s' - ops s) = optMaxRetries (options (this s))).
Proof.
  intros Hfail. rewrite executeWithTimeout_unfold.
  destruct (Z.to_nat (optMaxRetries (options (this s)))) as [|n] eqn:Hn.
  - exists VNull, s. split; [reflexivity|]. split; lia.
  - destruct (attempts_all_fail cfg operation operationName (S n) 1 VNull s Hfail)
      as (x & s' & E & St & _); [lia|].
    exists x, s'. split; [exact E|].
    rewrite (st_ops _ _ _ _ St). split; lia.
Qed.

Lemma executeWithTimeout_retry_bound_witness :
  (forall k, failsWithError (Sample.badGateway k) = true) /\
  exists x s',
    executeWithTimeout Sample.config Sample.badGateway "sandbox operation"
      Sample.fresh3 = (Throw x, s') /\
    ops s' = (ops Sample.fresh3
              + Z.to_nat (optMaxRetries (options (this Sample.fresh3))))%nat /\
    (0 <= optMaxRetries (options (this Sample.fresh3)) ->
     Z.of_nat (ops s' - ops Sample.fresh3)
     = optMaxRetries (options (this Sample.fresh3))).
Proof.
  split; [intros k; reflexivity|].
  apply (executeWithTimeout_retry_bound Sample.config Sample.badGateway
           "sandbox operation" Sample.fresh3).
  intros k. reflexivity.
Defined.

(** C1 as stated fails.  An operation that rejects with a string fails
    on every invocation; with [maxRetries = 3] it is invoked once, not
    three times: the classification of the caught value throws a
    [TypeError], which leaves the catch clause and the loop. *)
Lemma executeWithTimeout_retry_bound_counterexample :
  let run :=
    executeWithTimeout Sample.config Sample.rejectsText "sandbox operation"
      Sample.fresh3 in
  (forall k, fails (Sample.rejectsText k) = true) /\
  optMaxRetries (options (this Sample.fresh3)) = 3 /\
  fst run = Throw typeErrorNoMessage /\
  ops (snd run) = (ops Sample.fresh3 + 1)%nat /\
  ops (snd run)
  <> (ops Sample.fresh3
      + Z.to_nat (optMaxRetries (options (this Sample.fresh3))))%nat.
Proof.
  cbn zeta. split; [intros k; reflexivity|]. split; [reflexivity|].
  split; [reflexivity|]. split; [reflexivity|].
  vm_compute. discriminate.
Qed.

(** C2, amended.  When the first [N] invocations end in an [Error], by
    rejecting with one or by losing the race against the timer, and the
    next one fulfils with [v], and [N < maxRetries],
    [executeWithTimeout] returns [v] after exactly [N + 1] invocations:
    nothing is invoked after the success. *)
Theorem executeWithTimeout_early_success cfg {T} (operation : Operation T)
    (operationName : string) (s : State) (N : nat) (v : T) :
  (forall k, (k < N)%nat ->
     failsWithError (operation (ops s + k)%nat) = true) ->
  operation (ops s + N)%nat = OpFulfilled v ->
  Z.of_nat N < optMaxRetries (options (this s)) ->
  exists s',
    executeWithTimeout cfg operation operationName s = (Normal v, s') /\
    ops s' = (ops s + (N + 1))%nat.
Proof.
  intros Hfail Hok HN. rewrite executeWithTimeout_unfold.
  destruct (attempts_early_success cfg operation operationName N
              (Z.to_nat (optMaxRetries (options (this s)))) 1 VNull s v
              Hfail Hok) as (s' & E & St); [lia..|].
  exists s'. split; [exact E|]. exact (st_ops _ _ _ _ St).
Qed.

Lemma executeWithTimeout_early_success_witness :
  (forall k, (k < 2)%nat ->
     failsWithError (Sample.twiceLate (ops Sample.fresh3 + k)%nat) = true) /\
  Sample.twiceLate (ops Sample.fresh3 + 2)%nat = OpFulfilled 7%nat /\
  Z.of_nat 2 < optMaxRetries (options (this Sample.fresh3)) /\
  exists s',
    executeWithTimeout Sample.config Sample.twiceLate "health check"
      Sample.fresh3 = (Normal 7%nat, s') /\
    ops s' = (ops Sample.fresh3 + (2 + 1))%nat.
Proof.
  assert (H : forall k, (k < 2)%nat ->
            failsWithError (Sample.twiceLate (ops Sample.fresh3 + k)%nat)
            = true).
  { intros k Hk. destruct k as [|[|k]]; [reflexivity|reflexivity|lia]. }
  split; [exact H|]. split; [reflexivity|]. split; [reflexivity|].
  apply (executeWithTimeout_early_success Sample.config Sample.twiceLate
           "health check" Sample.fresh3 2 7%nat H);
    reflexivity.
Defined.

(** C2 as stated fails.  An operation that rejects with a string once
    and fulfils with 7 from then on, under [maxRetries = 3] (so
    [N = 1 < maxRetries]): the call does not resolve with 7 but throws a
    [TypeError], after one invocation, not two. *)
Lemma executeWithTimeout_early_success_counterexample :
  let run :=
    executeWithTimeout Sample.config Sample.textThenResult
      "sandbox operation" Sample.fresh3 in
  (forall k, (k < 1)%nat ->
     fails (Sample.textThenResult (ops Sample.fresh3 + k)%nat) = true) /\
  Sample.textThenResult (ops Sample.fresh3 + 1)%nat = OpFulfilled 7%nat /\
  Z.of_nat 1 < optMaxRetries (options (this Sample.fresh3)) /\
  fst run = Throw typeErrorNoMessage /\
  fst run <> Normal 7%nat /\
  ops (snd run) = (ops Sample.fresh3 + 1)%nat /\
  ops (snd run) <> (ops Sample.fresh3 + (1 + 1))%nat.
Proof.
  cbn zeta. split.
  { intros k Hk. destruct k as [|k]; [reflexivity|lia]. }
  split; [reflexivity|]. split; [reflexivity|]. split; [reflexivity|].
  split; [vm_compute; discriminate|]. split; [reflexivity|].
  vm_compute. discriminate.
Qed.

(** C8. With [maxRetries = 0] the call fails at once: the operation is
    never invoked and nothing else happens either; what is thrown is
    [lastError], still [null]. *)
Theorem executeWithTimeout_zero_retries cfg {T} (operation : Operation T)
    (operationName : string) (s : State) :
  optMaxRetries (options (this s)) = 0 ->
  executeWithTimeout cfg operation operationName s = (Throw VNull, s) /\
  ops (snd (executeWithTimeout cfg operation operationName s)) = ops s.
Proof.
  intros H0. rewrite executeWithTimeout_unfold, H0. split; reflexivity.
Qed.

Lemma executeWithTimeout_zero_retries_witness :
  optMaxRetries (options (this Sample.fresh0)) = 0 /\
  executeWithTimeout Sample.config Sample.twiceLate "sandbox operation"
    Sample.fresh0 = (Throw VNull, Sample.fresh0) /\
  ops (snd (executeWithTimeout Sample.config Sample.twiceLate
              "sandbox operation" Sample.fresh0)) = ops Sample.fresh0.
Proof.
  split; [reflexivity|].
  apply (executeWithTimeout_zero_retries Sample.config Sample.twiceLate
           "sandbox operation" Sample.fresh0).
  reflexivity.
Defined.

(** C5. With [maxRetries = 3], whatever the retry delay (0 included), an
    operation that always rejects with "Error: 502 Bad Gateway" makes
    the call reject with a message that contains "after 3 attempts" and
    "502 Bad Gateway"; the operation is invoked three times and the
    renewal is entered three times, once per failed attempt.  On a
    handle without [setTimeout] no remote call is made and each renewal
    leaves the manager as it found it. *)
Theorem bad_gateway_scenario cfg {T} (operation : Operation T)
    (operationName : string) (s : State) :
  optMaxRetries (options (this s)) = 3 ->
  (forall k,
     operation k = OpRejected (VError (mkError "Error: 502 Bad Gateway"))) ->
  exists msg s',
    executeWithTimeout cfg operation operationName s
    = (Throw (VError (mkError msg)), s') /\
    Str.includes msg "after 3 attempts" = true /\
    Str.includes msg "502 Bad Gateway" = true /\
    ops s' = (ops s + 3)%nat /\
    renewals s' = (renewals s + 3)%nat /\
    (setTimeout (sandbox (this s)) = None ->
     remoteCalls s' = remoteCalls s /\
     isExtending (this s') = isExtending (this s) /\
     forall s0, sandbox (this s0) = sandbox (this s) ->
       exists s0',
         extendSandboxTimeout cfg s0 = (Normal tt, s0') /\
         this s0' = this s0 /\ remoteCalls s0' = remoteCalls s0).
Proof.
  intros Hmax Hop. rewrite executeWithTimeout_unfold, Hmax.
  destruct (attempts_all_fail cfg operation operationName 3 1 VNull s)
    as (x & s' & E & St & e & He & ->).
  { intros k. now rewrite Hop. }
  { rewrite Hmax. reflexivity. }
  rewrite Hop in He. injection He as <-.
  eexists _, s'. split; [exact E|].
  rewrite Hmax. unfold exhaustedMessage. cbn [message].
  split; [|split; [|split; [|split]]].
  - change (" after " ++ Str.ofNumber 3 ++ " attempts. Last error: "
            ++ "Error: 502 Bad Gateway")
      with (" " ++ "after 3 attempts" ++ ". Last error: Error: 502 Bad Gateway").
    rewrite <- !append_assoc.
    rewrite (append_assoc _ "after 3 attempts"). apply includes_intro.
  - change (" after " ++ Str.ofNumber 3 ++ " attempts. Last error: "
            ++ "Error: 502 Bad Gateway")
      with (" after 3 attempts. Last error: Error: " ++ "502 Bad Gateway" ++ "").
    rewrite <- !append_assoc.
    rewrite (append_assoc _ "502 Bad Gateway"). apply includes_intro.
  - exact (st_ops _ _ _ _ St).
  - rewrite (st_renewals _ _ _ _ St). f_equal.
    cbn [renewalsDue]. rewrite !Hop. reflexivity.
  - intros Hnone. split; [exact (st_absent _ _ _ _ St Hnone)|].
    split; [exact (st_extending _ _ _ _ St)|].
    intros s0 Hs0. rewrite <- Hs0 in Hnone.
    destruct (extend_noop cfg s0 Hnone) as (s0' & E0 & H1 & H2 & _).
    now exists s0'.
Qed.

Lemma bad_gateway_scenario_witness :
  optMaxRetries (options (this Sample.fresh3)) = 3 /\
  optRetryDelay (options (this Sample.fresh3)) = 0 /\
  setTimeout (sandbox (this Sample.fresh3)) = None /\
  (forall k,
     Sample.badGateway k
     = OpRejected (VError (mkError "Error: 502 Bad Gateway"))) /\
  exists msg s',
    executeWithTimeout Sample.config Sample.badGateway "sandbox operation"
      Sample.fresh3 = (Throw (VError (mkError msg)), s') /\
    Str.includes msg "after 3 attempts" = true /\
    Str.includes msg "502 Bad Gateway" = true /\
    ops s' = (ops Sample.fresh3 + 3)%nat /\
    renewals s' = (renewals Sample.fresh3 + 3)%nat /\
    (setTimeout (sandbox (this Sample.fresh3)) = None ->
     remoteCalls s' = remoteCalls Sample.fresh3 /\
     isExtending (this s') = isExtending (this Sample.fresh3) /\
     forall s0, sandbox (this s0) = sandbox (this Sample.fresh3) ->
       exists s0',
         extendSandboxTimeout Sample.config s0 = (Normal tt, s0') /\
         this s0' = this s0 /\ remoteCalls s0' = remoteCalls s0).
Proof.
  split; [reflexivity|]. split; [reflexivity|]. split; [reflexivity|].
  split; [intros k; reflexivity|].
  apply (bad_gateway_scenario Sample.config Sample.badGateway
           "sandbox operation" Sample.fresh3).
  - reflexivity.
  - intros k. reflexivity.
Defined.

(** ** The renewal *)

(** C4. A renewal entered while [isExtending] is set returns at once:
    the remote [setTimeout] is not called, the manager, the clock and
    the timers are untouched, and only the log grows.  A renewal entered
    while the flag is clear ends with the flag clear, also when the
    remote call rejects and the rejection leaves the method. *)
Theorem extendSandboxTimeout_guard cfg (s : State) :
  (isExtending (this s) = true ->
   exists s',
     extendSandboxTimeout cfg s = (Normal tt, s') /\
     this s' = this s /\
     remoteCalls s' = remoteCalls s /\
     clockReads (amb s') = clockReads (amb s) /\
     timers (amb s') = timers (amb s) /\
     trace (amb s')
     = Console LevelLog
         "[SandboxTimeoutManager] Already extending timeout, skipping..." None
       :: EnterExtend :: trace (amb s)) /\
  (isExtending (this s) = false ->
   isExtending (this (snd (extendSandboxTimeout cfg s))) = false /\
   forall method x,
     setTimeout (sandbox (this s)) = Some method ->
     method (remoteCalls s) (timeoutMs (e2b cfg)) = Some x ->
     fst (extendSandboxTimeout cfg s) = Throw x /\
     remoteRejections (snd (extendSandboxTimeout cfg s))
     = S (remoteRejections s)).
Proof.
  split.
  - intros Hbusy. rewrite (extend_busy cfg s Hbusy).
    eexists. split; [reflexivity|]. destruct s as [m a]. cbn. auto 6.
  - intros Hfree. split; [exact (extend_releases cfg s Hfree)|].
    intros method x Hm Hx.
    rewrite (extend_rejected cfg s method x Hfree Hm Hx).
    split; [reflexivity|]. destruct s as [m a]. reflexivity.
Qed.

Lemma extendSandboxTimeout_guard_witness :
  (isExtending (this Sample.busy) = true /\
   exists s',
     extendSandboxTimeout Sample.config Sample.busy = (Normal tt, s') /\
     this s' = this Sample.busy /\
     remoteCalls s' = remoteCalls Sample.busy /\
     clockReads (amb s') = clockReads (amb Sample.busy) /\
     timers (amb s') = timers (amb Sample.busy) /\
     trace (amb s')
     = Console LevelLog
         "[SandboxTimeoutManager] Already extending timeout, skipping..." None
       :: EnterExtend :: trace (amb Sample.busy)) /\
  (isExtending (this Sample.lost) = false /\
   isExtending (this (snd (extendSandboxTimeout Sample.config Sample.lost)))
   = false /\
   fst (extendSandboxTimeout Sample.config Sample.lost)
   = Throw (VError (mkError "sandbox was not found"))).
Proof.
  split.
  - split; [reflexivity|].
    apply (proj1 (extendSandboxTimeout_guard Sample.config Sample.busy)).
    reflexivity.
  - split; [reflexivity|].
    destruct (proj2 (extendSandboxTimeout_guard Sample.config Sample.lost)
                eq_refl) as [Hclear Hthrow].
    split; [exact Hclear|].
    exact (proj1 (Hthrow (fun _ _ => Some (VError (mkError "sandbox was not found")))
                   (VError (mkError "sandbox was not found")) eq_refl eq_refl)).
Defined.


(** ** The periodic check *)

(** C7. With a threshold of [minutes <> 0] the constructor arms an
    interval of [min(minutes * 60000 / 2, 60000)] ms and keeps its
    handle.  A tick enters the renewal exactly when the time since the
    last activity exceeds 0.8 times the threshold in ms, and then once.
    With 5 minutes and 265 s of inactivity the tick enters the renewal
    once, and calls the remote [setTimeout] once when the handle has it
    and no renewal is under way. *)
Theorem auto_extend_schedule cfg :
  (forall (sb : Sandbox) (given : TimeoutManagerOptions) (a : Ambient),
      let minutes := optAutoExtendThreshold (resolveOptions cfg given) in
      let s := construct cfg sb given a in
      minutes <> 0 ->
      autoExtendTimer (this s) = Some (nextTimer a) /\
      timers (amb s) !! nextTimer a
      = Some (Z.min (minutes * 60000 / 2) 60000) /\
      In (SetInterval (nextTimer a) (Z.min (minutes * 60000 / 2) 60000))
         (trace (amb s))) /\
  (forall s : State,
      let now := clock (amb s) (clockReads (amb s)) in
      let thresholdMs := optAutoExtendThreshold (options (this s)) * 60000 in
      let s' := snd (autoExtendTick cfg s) in
      (renewals s' = S (renewals s) <->
       (inject_Z thresholdMs * (8 # 10)
        < inject_Z (now - lastActivity (this s)))%Q) /\
      (renewals s' = renewals s <->
       ~ (inject_Z thresholdMs * (8 # 10)
          < inject_Z (now - lastActivity (this s)))%Q)) /\
  (forall s : State,
      optAutoExtendThreshold (options (this s)) = 5 ->
      clock (amb s) (clockReads (amb s)) - lastActivity (this s) = 265 * 1000 ->
      let s' := snd (autoExtendTick cfg s) in
      renewals s' = S (renewals s) /\
      (isExtending (this s) = false ->
       setTimeout (sandbox (this s)) <> None ->
       remoteCalls s' = S (remoteCalls s))).
Proof.
  split; [|split].
  - intros sb given a minutes s Hm. subst s minutes.
    cbn [resolveOptions optAutoExtendThreshold] in *.
    set (minutes := default _ _) in *.
    unfold construct. run. unfold startAutoExtendTimer. run.
    fold minutes. destruct (Z.eqb_spec minutes 0) as [|_]; [contradiction|].
    unfold setInterval. run.
    replace (minutes * 60 * 1000) with (minutes * 60000) by lia.
    split; [reflexivity|]. split; [apply lookup_insert_eq|].
    right. now left.
  - intros s now thresholdMs s'. subst now thresholdMs s'.
    destruct (tick_effect cfg s) as (s' & E & St & _). rewrite E. cbn [snd].
    pose proof (st_renewals _ _ _ _ St) as Hr.
    pose proof (tickDue_iff s) as Hd.
    replace (optAutoExtendThreshold (options (this s)) * 60 * 1000)
      with (optAutoExtendThreshold (options (this s)) * 60000) in Hd by lia.
    rewrite <- Hd.
    destruct (tickDue s); split; split; intros; try lia; try congruence.
  - intros s Hm Hel s'. subst s'.
    destruct (tick_effect cfg s) as (s' & E & St & Hcall). rewrite E. cbn [snd].
    assert (Hdue : tickDue s = true).
    { apply tickDue_iff. rewrite Hm, Hel. reflexivity. }
    pose proof (st_renewals _ _ _ _ St) as Hr. rewrite Hdue in Hr.
    split; [lia|]. exact (Hcall Hdue).
Qed.

Lemma auto_extend_schedule_witness :
  (optAutoExtendThreshold (resolveOptions Sample.config Sample.threeRetries)
   <> 0 /\
   autoExtendTimer (this Sample.fresh3) = Some O /\
   timers (amb Sample.fresh3) !! O = Some 60000) /\
  (optAutoExtendThreshold (options (this Sample.idle)) = 5 /\
   clock (amb Sample.idle) (clockReads (amb Sample.idle))
   - lastActivity (this Sample.idle) = 265 * 1000 /\
   renewals (snd (autoExtendTick Sample.config Sample.idle))
   = S (renewals Sample.idle) /\
   remoteCalls (snd (autoExtendTick Sample.config Sample.idle))
   = S (remoteCalls Sample.idle)).
Proof.
  split.
  - assert (Hm : optAutoExtendThreshold
                   (resolveOptions Sample.config Sample.threeRetries) <> 0)
      by discriminate.
    split; [exact Hm|].
    destruct (proj1 (auto_extend_schedule Sample.config)
                Sample.bareSandbox Sample.threeRetries Sample.ambient0 Hm)
      as (Ht & Hl & _).
    split; [exact Ht|exact Hl].
  - split; [reflexivity|]. split; [reflexivity|].
    destruct (proj2 (proj2 (auto_extend_schedule Sample.config))
                Sample.idle eq_refl eq_refl) as [Hr Hc].
    split; [exact Hr|]. apply Hc; [reflexivity|discriminate].
Defined.

(** ** Teardown and the slot *)

(** C9. The slot holds one reference or none.  When it holds the
    manager [m] at [previous], [setGlobalTimeoutManager manager] first
    runs the clean-up of [m], which clears its interval and its handle
    while the slot still holds [previous], and then assigns: afterwards
    [getGlobalTimeoutManager] returns [manager]. *)
Theorem setGlobalTimeoutManager_replaces (rt : Runtime) (previous : nat)
    (m : SandboxTimeoutManager) (manager : option nat) :
  globalTimeoutManager rt = Some previous ->
  heap rt !! previous = Some m ->
  let torn := cleanupPrevious rt in
  let rt' := setGlobalTimeoutManager manager rt in
  heap torn !! previous = Some (setAutoExtendTimer None m) /\
  globalTimeoutManager torn = Some previous /\
  (forall id, autoExtendTimer m = Some id ->
     trace (ambient torn) = ClearInterval id :: trace (ambient rt) /\
     timers (ambient torn) !! id = None) /\
  rt' = mkRuntime (heap torn) manager (ambient torn) /\
  getGlobalTimeoutManager rt' = manager.
Proof.
  intros Hslot Hm torn rt'. subst torn rt'.
  unfold setGlobalTimeoutManager, cleanupPrevious, callOn. rewrite Hslot, Hm.
  destruct rt as [h g [ck cr tr tm nt]]. destruct m as [sb o la t ie].
  cbn in *. unfold cleanup. run.
  destruct t as [id|]; cbn.
  - split; [apply lookup_insert_eq|]. split; [reflexivity|].
    split; [|split; reflexivity].
    intros id' [= <-]. split; [reflexivity|apply lookup_delete_eq].
  - split; [apply lookup_insert_eq|]. split; [reflexivity|].
    split; [|split; reflexivity]. intros id' [=].
Qed.

Lemma setGlobalTimeoutManager_replaces_witness :
  globalTimeoutManager Sample.installed = Some O /\
  heap Sample.installed !! O = Some (this Sample.fresh3) /\
  autoExtendTimer (this Sample.fresh3) = Some O /\
  heap (cleanupPrevious Sample.installed) !! O
  = Some (setAutoExtendTimer None (this Sample.fresh3)) /\
  trace (ambient (cleanupPrevious Sample.installed))
  = ClearInterval O :: trace (ambient Sample.installed) /\
  timers (ambient (cleanupPrevious Sample.installed)) !! O = None /\
  getGlobalTimeoutManager (setGlobalTimeoutManager None Sample.installed)
  = None.
Proof.
  assert (Hslot : globalTimeoutManager Sample.installed = Some O)
    by reflexivity.
  assert (Hm : heap Sample.installed !! O = Some (this Sample.fresh3))
    by reflexivity.
  destruct (setGlobalTimeoutManager_replaces Sample.installed O
              (this Sample.fresh3) None Hslot Hm)
    as (Hheap & _ & Hclear & _ & Hget).
  destruct (Hclear O eq_refl) as [Htrace Htimers].
  repeat (split; [assumption || reflexivity|]). exact Hget.
Defined.

(** C10. The clean-up changes one field of the manager, the handle of
    the interval, which it clears; [lastActivity], [isExtending], the
    sandbox and the options are as before, and [getStatus] then reports
    the same [lastActivity] and [isExtending] with [autoExtendEnabled]
    false. *)
Theorem cleanup_frame (s : State) :
  exists s',
    cleanup s = (Normal tt, s') /\
    this s' = setAutoExtendTimer None (this s) /\
    autoExtendTimer (this s') = None /\
    lastActivity (this s') = lastActivity (this s) /\
    isExtending (this s') = isExtending (this s) /\
    sandbox (this s') = sandbox (this s) /\
    options (this s') = options (this s) /\
    fst (getStatus s')
    = Normal (mkStatus (lastActivity (this s))
                (clock (amb s') (clockReads (amb s')) - lastActivity (this s))
                (isExtending (this s)) false).
Proof.
  destruct s as [[sb o la t ie] [ck cr tr tm nt]].
  destruct t as [id|]; (eexists; split; [reflexivity|]); cbn;
    repeat (split; [reflexivity|]); reflexivity.
Qed.

(** * The rest of the class, and the route that calls it: facts *)

(** ** Printed integers and the timer's error *)

(** * Facts about the rest of the code *)

(** ** The message of the timer *)









(** ** Attempts, timers and waits *)


(** ** Pacing of the retry loop *)

Ltac pace :=
  unfold ops;
  cbn [amb this trace withAmb withThis pushEvent setLastActivity
       setIsExtending setAutoExtendTimer sandbox options lastActivity
       autoExtendTimer isExtending timers clock clockReads];
  rewrite ?count_cons;
  cbn [isOperationCall isRaceTimer isRaceTimerOf isSleep isSleepOf Nat.add];
  rewrite ?Z.eqb_refl.

Ltac pace_in H :=
  unfold ops in H;
  cbn [amb this trace withAmb withThis pushEvent setLastActivity
       setIsExtending setAutoExtendTimer sandbox options lastActivity
       autoExtendTimer isExtending timers clock clockReads] in H;
  rewrite ?count_cons in H;
  cbn [isOperationCall isRaceTimer isRaceTimerOf isSleep isSleepOf Nat.add] in H;
  rewrite ?Z.eqb_refl in H.

Lemma extend_paced cfg s :
  exists c s',
    extendSandboxTimeout cfg s = (c, s') /\
    Paced 0 0 s s' /\ (stamped s -> stamped s').
Proof.
  destruct s as [[[method] o la t ie] [ck cr tr tm nt]].
  unfold extendSandboxTimeout, bind, emit, modify, gets, console_log,
    console_warn, tryFinally, updateLastActivity, dateNow, awaitSetTimeout.
  cbn. destruct ie; cbn.
  - eexists _, _. split; [reflexivity|]. split.
    + split; pace; first [reflexivity|lia].
    + intros (k & Hk & Hl). exists k. cbn in *. auto.
  - destruct method as [f|]; cbn.
    + destruct (f _ _) as [x|] eqn:E; cbn.
      * eexists _, _. split; [reflexivity|]. split.
        -- split; pace; first [reflexivity|lia].
        -- intros (k & Hk & Hl). exists k. cbn in *. auto.
      * eexists _, _. split; [reflexivity|]. split.
        -- split; pace; first [reflexivity|lia].
        -- intros _. exists cr. cbn. auto.
    + eexists _, _. split; [reflexivity|]. split.
      * split; pace; first [reflexivity|lia].
      * intros (k & Hk & Hl). exists k. cbn in *. auto.
Qed.

Ltac use_paced :=
  match goal with
  | X : Paced _ _ _ ?sy, Y : stamped _ -> stamped ?sy |- _ =>
      destruct X as [P1 P2 P3 P4 P5 P6 P7 P8];
      destruct sy as [[sb' o' la' t' ie'] [ck' cr' tr' tm' nt']];
      pace_in P1; pace_in P2; pace_in P3; pace_in P4; pace_in P5;
      pace_in P6; pace_in P7; pace_in P8
  end.

Ltac paced :=
  split; pace; first [assumption | symmetry; assumption | reflexivity | lia].

Section PacedLoop.

Variable cfg : AppConfig.
Context {T : Type}.
Variable operation : Operation T.
Variable operationName : string.

Lemma attempt_fulfilled_paced n attempt lastError s v :
  operation (ops s) = OpFulfilled v ->
  exists s',
    attempts cfg operation operationName (S n) attempt lastError s
    = (Normal v, s') /\ Paced 1 0 s s' /\ stamped s'.
Proof.
  intros Hop. destruct s as [[sb o la t ie] [ck cr tr tm nt]].
  unfold ops in Hop. cbn in Hop.
  cbn [attempts]. run. rewrite Hop. run.
  eexists. split; [reflexivity|]. split; [paced|].
  exists cr. cbn. auto.
Qed.

Lemma attempt_failed_paced n attempt lastError s e :
  failureOf (optProcessTimeout (options (this s))) (operation (ops s)) = Some e ->
  exists s1,
    Paced 1 (if (attempt =? optMaxRetries (options (this s)))%Z then 0 else 1)
      s s1 /\
    stamped s1 /\
    attempts cfg operation operationName (S n) attempt lastError s
    = if (attempt =? optMaxRetries (options (this s)))%Z then
        (Throw (VError (mkError
           (exhaustedMessage operationName (optMaxRetries (options (this s))) e))),
         s1)
      else attempts cfg operation operationName n (attempt + 1) (VError e) s1.
Proof.
  intros Hop. destruct s as [[sb o la t ie] [ck cr tr tm nt]].
  unfold ops in Hop. cbn in Hop.
  cbn [attempts]. run.
  destruct (operation _) as [v|[e0| | |w]|]; cbn in Hop; try discriminate;
    injection Hop as <-; run.
  all: match goal with
       | |- context [isTimeoutError ?e1] => destruct (isTimeoutError e1); run
       end.
  all: try match goal with
       | |- context [extendSandboxTimeout cfg ?sx] =>
           destruct (extend_paced cfg sx) as ([[]|x] & sy & E & X & Y);
           rewrite E; clear E; run;
           assert (Ys : stamped sy) by (apply Y; exists cr; cbn; auto);
           use_paced; clear Y
       end.
  all: destruct (attempt =? optMaxRetries o)%Z; run.
  all: eexists; (split; [|split; [|reflexivity]]).
  all: try (paced; fail).
  all: first [ exists cr; cbn; split; reflexivity
             | destruct Ys as (k & Hk & Hl); exists k; cbn in *; auto ].
Qed.

Lemma attempt_stray_paced n attempt lastError s x :
  strayOf (operation (ops s)) = Some x ->
  exists s1,
    attempts cfg operation operationName (S n) attempt lastError s
    = (Throw x, s1) /\
    Paced 1 0 s s1 /\ stamped s1.
Proof.
  intros Hop. destruct s as [[sb o la t ie] [ck cr tr tm nt]].
  unfold ops in Hop. cbn in Hop.
  cbn [attempts]. run.
  destruct (operation _) as [v|[e0| | |w]|]; cbn in Hop; try discriminate;
    injection Hop as <-; run.
  all: eexists; (split; [reflexivity|]); (split; [paced|]).
  all: exists cr; cbn; auto.
Qed.

End PacedLoop.

Lemma Paced_trans a b c d s1 s2 s3 :
  Paced a b s1 s2 -> Paced c d s2 s3 -> Paced (a + c) (b + d) s1 s3.
Proof.
  intros [A1 A2 A3 A4 A5 A6 A7 A8] [B1 B2 B3 B4 B5 B6 B7 B8].
  rewrite A1 in B6, B8.
  split; try congruence; try lia.
Qed.

Section PacedRuns.

Variable cfg : AppConfig.
Context {T : Type}.
Variable operation : Operation T.
Variable operationName : string.

Lemma attempts_paced n : forall attempt lastError s,
  (1 <= n)%nat ->
  attempt + Z.of_nat n = optMaxRetries (options (this s)) + 1 ->
  exists c s' a,
    attempts cfg operation operationName n attempt lastError s = (c, s') /\
    Paced a (a - 1) s s' /\ (1 <= a <= n)%nat /\ stamped s'.
Proof.
  induction n as [|n IH]; intros attempt lastError s Hn Hinv; [lia|].
  destruct (failureOf (optProcessTimeout (options (this s)))
              (operation (ops s))) as [e|] eqn:He.
  - destruct (attempt_failed_paced cfg operation operationName n attempt
                lastError s e He) as (s1 & P & St & E).
    rewrite E.
    destruct (Z.eqb_spec attempt (optMaxRetries (options (this s))))
      as [Heq|Hne].
    + eexists _, s1, 1%nat. split; [reflexivity|]. split; [exact P|].
      split; [lia|exact St].
    + destruct (IH (attempt + 1) (VError e) s1)
        as (c & s' & a & E' & P' & Ha & St'); [lia| |].
      { rewrite (pc_options _ _ _ _ P). lia. }
      exists c, s', (1 + a)%nat. split; [exact E'|]. split; [|split; [lia|exact St']].
      replace (1 + a - 1)%nat with (1 + (a - 1))%nat by lia.
      eapply Paced_trans; eauto.
  - destruct (attempt_cases (optProcessTimeout (options (this s)))
                (operation (ops s))) as [(v & Hop)|[(e & He')|(x & Hx & _)]];
      [|congruence|].
    + destruct (attempt_fulfilled_paced cfg operation operationName n attempt
                  lastError s v Hop) as (s' & E & P & St).
      exists (Normal v), s', 1%nat. split; [exact E|]. split; [exact P|].
      split; [lia|exact St].
    + destruct (attempt_stray_paced cfg operation operationName n attempt
                  lastError s x Hx) as (s' & E & P & St).
      exists (Throw x), s', 1%nat. split; [exact E|]. split; [exact P|].
      split; [lia|exact St].
Qed.

(** No renewal where no failure looks like a timeout. *)
Lemma attempts_quiet n : forall attempt lastError s,
  (forall k e,
     failureOf (optProcessTimeout (options (this s))) (operation k) = Some e ->
     isTimeoutError e = false) ->
  exists c s' a,
    attempts cfg operation operationName n attempt lastError s = (c, s') /\
    Stepped a 0 s s'.
Proof.
  induction n as [|n IH]; intros attempt lastError s Hq.
  - exists (Throw lastError), s, O. split; [reflexivity|apply Stepped_refl].
  - destruct (failureOf (optProcessTimeout (options (this s)))
                (operation (ops s))) as [e|] eqn:He.
    + destruct (attempt_failed cfg operation operationName n attempt
                  lastError s e He) as (s1 & St & E).
      rewrite E. rewrite (Hq _ _ He) in St.
      destruct (attempt =? optMaxRetries (options (this s)))%Z.
      * eexists _, s1, 1%nat. split; [reflexivity|exact St].
      * destruct (IH (attempt + 1) (VError e) s1) as (c & s' & a & E' & St').
        { rewrite (st_options _ _ _ _ St). exact Hq. }
        exists c, s', (1 + a)%nat. split; [exact E'|].
        change O with (0 + 0)%nat. eapply Stepped_trans; eauto.
    + destruct (attempt_cases (optProcessTimeout (options (this s)))
                  (operation (ops s))) as [(v & Hop)|[(e & He')|(x & Hx & _)]];
        [|congruence|].
      * destruct (attempt_fulfilled cfg operation operationName n attempt
                    lastError s v Hop) as (s' & E & St).
        exists (Normal v), s', 1%nat. split; [exact E|exact St].
      * destruct (attempt_stray cfg operation operationName n attempt
                    lastError s x Hx) as (s' & E & St).
        exists (Throw x), s', 1%nat. split; [exact E|exact St].
Qed.

End PacedRuns.

Section RangeFacts.

Variable cfg : AppConfig.
Context {T : Type}.
Variable operation : Operation T.
Variable operationName : string.

(** The loop when the next [n] invocations end in an [Error]. *)
Lemma attempts_fail_range n : forall attempt lastError s,
  (forall k, (k < n)%nat ->
     failsWithError (operation (ops s + k)%nat) = true) ->
  attempt + Z.of_nat n = optMaxRetries (options (this s)) + 1 ->
  exists x s' b,
    attempts cfg operation operationName n attempt lastError s = (Throw x, s') /\
    Stepped n b s s' /\
    match n with
    | O => x = lastError
    | S n' =>
        exists e,
          failureOf (optProcessTimeout (options (this s)))
            (operation (ops s + n')%nat) = Some e /\
          x = VError (mkError
                (exhaustedMessage operationName
                   (optMaxRetries (options (this s))) e))
    end.
Proof.
  induction n as [|n IH]; intros attempt lastError s Hfail Hn.
  - exists lastError, s, O.
    split; [reflexivity|]. split; [apply Stepped_refl|reflexivity].
  - pose proof (Hfail O ltac:(lia)) as H0. rewrite Nat.add_0_r in H0.
    destruct (fails_failureOf (optProcessTimeout (options (this s))) _ H0)
      as (e & He).
    destruct (attempt_failed cfg operation operationName n attempt lastError
                s e He) as (s1 & St & E).
    rewrite E.
    destruct (Z.eqb_spec attempt (optMaxRetries (options (this s))))
      as [Heq|Hne].
    + assert (n = O) by lia. subst n.
      eexists _, s1, _. split; [reflexivity|]. split; [exact St|].
      exists e. now rewrite Nat.add_0_r.
    + pose proof (st_options _ _ _ _ St) as Ho.
      pose proof (st_ops _ _ _ _ St) as Hops.
      destruct (IH (attempt + 1) (VError e) s1) as (x & s' & b & E' & St' & Hx).
      { intros k Hk. rewrite Hops.
        replace (ops s + 1 + k)%nat with (ops s + S k)%nat by lia.
        apply Hfail. lia. }
      { rewrite Ho. lia. }
      exists x, s', ((if isTimeoutError e then 1 else 0) + b)%nat.
      split; [exact E'|]. split.
      * change (S n) with (1 + n)%nat. eapply Stepped_trans; eauto.
      * destruct n as [|n']; [lia|]. rewrite Ho, Hops in Hx.
        replace (ops s + S n')%nat with (ops s + 1 + n')%nat by lia. exact Hx.
Qed.

(** The loop after [N] invocations that end in an [Error], when more
    attempts are allowed: it is at attempt [attempt + N], with [N]
    invocations more on the trace. *)
Lemma attempts_after_failures N : forall n attempt lastError s,
  (forall k, (k < N)%nat ->
     failsWithError (operation (ops s + k)%nat) = true) ->
  (N < n)%nat ->
  attempt + Z.of_nat n = optMaxRetries (options (this s)) + 1 ->
  exists s1 b lastError',
    attempts cfg operation operationName n attempt lastError s
    = attempts cfg operation operationName (n - N) (attempt + Z.of_nat N)
        lastError' s1 /\
    Stepped N b s s1.
Proof.
  induction N as [|N IH]; intros n attempt lastError s Hfail HN Hn.
  - exists s, O, lastError. rewrite Nat.sub_0_r, Z.add_0_r.
    split; [reflexivity|apply Stepped_refl].
  - destruct n as [|n]; [lia|].
    pose proof (Hfail O ltac:(lia)) as H0. rewrite Nat.add_0_r in H0.
    destruct (fails_failureOf (optProcessTimeout (options (this s))) _ H0)
      as (e & He).
    destruct (attempt_failed cfg operation operationName n attempt lastError
                s e He) as (s1 & St & E).
    rewrite E.
    destruct (Z.eqb_spec attempt (optMaxRetries (options (this s))))
      as [Heq|Hne]; [lia|].
    pose proof (st_options _ _ _ _ St) as Ho.
    pose proof (st_ops _ _ _ _ St) as Hops.
    destruct (IH n (attempt + 1) (VError e) s1)
      as (s2 & b & lastError' & E' & St').
    + intros k Hk. rewrite Hops.
      replace (ops s + 1 + k)%nat with (ops s + S k)%nat by lia.
      apply Hfail. lia.
    + lia.
    + rewrite Ho. lia.
    + exists s2, ((if isTimeoutError e then 1 else 0) + b)%nat, lastError'.
      split.
      * rewrite E'. cbn [Nat.sub].
        replace (attempt + 1 + Z.of_nat N) with (attempt + Z.of_nat (S N))
          by lia.
        reflexivity.
      * change (S N) with (1 + N)%nat. eapply Stepped_trans; eauto.
Qed.

(** The loop when, after [N] invocations that end in an [Error], the
    operation rejects with a value that is not one. *)
Lemma attempts_early_stray N : forall n attempt lastError s x,
  (forall k, (k < N)%nat ->
     failsWithError (operation (ops s + k)%nat) = true) ->
  strayOf (operation (ops s + N)%nat) = Some x ->
  (N < n)%nat ->
  attempt + Z.of_nat n = optMaxRetries (options (this s)) + 1 ->
  exists s' b,
    attempts cfg operation operationName n attempt lastError s
    = (Throw x, s') /\
    Stepped (N + 1) b s s'.
Proof.
  intros n attempt lastError s x Hfail Hx HN Hn.
  destruct (attempts_after_failures N n attempt lastError s Hfail HN Hn)
    as (s1 & b & lastError' & E & St).
  rewrite E. destruct (n - N)%nat as [|m] eqn:Hm; [lia|].
  rewrite <- (st_ops _ _ _ _ St) in Hx.
  destruct (attempt_stray cfg operation operationName m
              (attempt + Z.of_nat N) lastError' s1 x Hx) as (s' & E' & St').
  exists s', (b + 0)%nat. split; [exact E'|].
  eapply Stepped_trans; eauto.
Qed.

(** Among the next [n] invocations either one is the first not to end
    in an [Error], or all do. *)
Lemma first_success_or_none (k0 n : nat) :
  (exists N, (N < n)%nat /\
     (forall k, (k < N)%nat ->
        failsWithError (operation (k0 + k)%nat) = true) /\
     failsWithError (operation (k0 + N)%nat) = false) \/
  (forall k, (k < n)%nat -> failsWithError (operation (k0 + k)%nat) = true).
Proof.
  induction n as [|n [(N & HN & Hf & Hs)|Hall]].
  - right. intros k Hk. lia.
  - left. exists N. split; [lia|]. split; assumption.
  - destruct (failsWithError (operation (k0 + n)%nat)) eqn:E.
    + right. intros k Hk. destruct (Nat.eq_dec k n) as [->|]; [exact E|].
      apply Hall. lia.
    + left. exists n. split; [lia|]. split; assumption.
Qed.

End RangeFacts.

Lemma fails_settleOnly {A} (r : Raced A) : fails (settleOnly r) = fails r.
Proof. destruct r; reflexivity. Qed.

Lemma failsWithError_settleOnly {A} (r : Raced A) :
  failsWithError (settleOnly r) = failsWithError r.
Proof. destruct r; reflexivity. Qed.

Lemma strayOf_settleOnly {A} (r : Raced A) :
  strayOf (settleOnly r) = strayOf r.
Proof. destruct r; reflexivity. Qed.

(** An attempt that does not end in an [Error] fulfils, or rejects with
    a value that is not one. *)
Lemma not_failsWithError {A} (r : Raced A) :
  failsWithError r = false ->
  (exists v, r = OpFulfilled v) \/ (exists x, strayOf r = Some x).
Proof.
  destruct r as [v|[e| | |w]|]; cbn; try discriminate; eauto.
Qed.

Lemma codeOptions_lookup (timeout : Z) (callerOptions : gmap string JsProp)
    (key : string) :
  codeOptions timeout callerOptions !! key
  = match callerOptions !! key with
    | Some v => Some v
    | None => if decide (key = "timeout") then Some (PNumber timeout) else None
    end.
Proof.
  unfold codeOptions. destruct (callerOptions !! key) as [v|] eqn:E.
  - now apply lookup_union_Some_l.
  - rewrite lookup_union_r by exact E. case_decide as Hk.
    + subst key. now rewrite lookup_insert_eq.
    + rewrite lookup_insert_ne by congruence. now rewrite lookup_empty.
Qed.

Lemma processArgs_lookup (cmd : string) (timeout : Z)
    (callerOptions : gmap string JsProp) (key : string) :
  processArgs cmd timeout callerOptions !! key
  = match callerOptions !! key with
    | Some v => Some v
    | None =>
        if decide (key = "cmd") then Some (PString cmd)
        else if decide (key = "timeout") then Some (PNumber timeout)
        else None
    end.
Proof.
  unfold processArgs. destruct (callerOptions !! key) as [v|] eqn:E.
  - now apply lookup_union_Some_l.
  - rewrite lookup_union_r by exact E. case_decide as Hk.
    + subst key. now rewrite lookup_insert_eq.
    + rewrite lookup_insert_ne by congruence. case_decide as Hk'.
      * subst key. now rewrite lookup_insert_eq.
      * rewrite lookup_insert_ne by congruence. now rewrite lookup_empty.
Qed.

(** ** Properties of the manager *)

(** X1. [cleanup] is idempotent: a second call changes nothing and
    records no further [clearInterval]; without a registered interval the
    first call changes nothing either; with interval [id] registered,
    exactly one [clearInterval] is recorded over both calls and [id] is
    no longer among the running timers. *)
Theorem cleanup_idempotent (s : State) :
  let once := snd (cleanup s) in
  cleanup once = (Normal tt, once) /\
  (autoExtendTimer (this s) = None -> cleanup s = (Normal tt, s)) /\
  (forall id, autoExtendTimer (this s) = Some id ->
     count isClearInterval (trace (amb (snd (cleanup once))))
     = S (count isClearInterval (trace (amb s))) /\
     timers (amb once) !! id = None).
Proof.
  destruct s as [[sb o la t ie] [ck cr tr tm nt]].
  destruct t as [id|]; cbn.
  - split; [reflexivity|]. split; [discriminate|].
    intros id' [= <-]. split; [reflexivity|apply lookup_delete_eq].
  - split; [reflexivity|]. split; [reflexivity|]. intros id' [=].
Qed.

(** X2. With [maxRetries] zero or negative the loop body never runs:
    [executeWithTimeout] throws the initial [lastError], which is
    [null], and leaves the manager and the world as they were (the
    operation is not invoked, nothing is logged, the clock is not
    read). *)
Theorem executeWithTimeout_nonpositive_retries cfg {T} (operation : Operation T)
    (operationName : string) (s : State) :
  optMaxRetries (options (this s)) <= 0 ->
  executeWithTimeout cfg operation operationName s = (Throw VNull, s).
Proof.
  intros H. rewrite executeWithTimeout_unfold.
  replace (Z.to_nat (optMaxRetries (options (this s)))) with O by lia.
  reflexivity.
Qed.

Lemma executeWithTimeout_nonpositive_retries_witness :
  optMaxRetries (options (this Further.negativeRetries)) <= 0 /\
  executeWithTimeout Sample.config Sample.badGateway "sandbox operation"
    Further.negativeRetries = (Throw VNull, Further.negativeRetries).
Proof.
  assert (H : optMaxRetries (options (this Further.negativeRetries)) <= 0)
    by (vm_compute; discriminate).
  split; [exact H|].
  exact (executeWithTimeout_nonpositive_retries Sample.config
           Sample.badGateway "sandbox operation" Further.negativeRetries H).
Defined.

(** X3. When every attempt of a run with [maxRetries = n + 1 >= 1]
    ends in an [Error], the error thrown is a new [Error] whose message is
    "Failed to execute <operationName> after <maxRetries> attempts.
    Last error: <message>", where <message> is the message of the error
    of the LAST attempt (the [n]-th invocation from the start of the
    run). *)
Theorem exhausted_error_wraps_last cfg {T} (operation : Operation T)
    (operationName : string) (s : State) (n : nat) (e : Error) :
  (forall k, failsWithError (operation k) = true) ->
  optMaxRetries (options (this s)) = Z.of_nat (S n) ->
  failureOf (optProcessTimeout (options (this s)))
    (operation (ops s + n)%nat) = Some e ->
  fst (executeWithTimeout cfg operation operationName s)
  = Throw (VError (mkError
      ("Failed to execute " ++ operationName ++ " after "
       ++ Str.ofNumber (Z.of_nat (S n)) ++ " attempts. Last error: "
       ++ message e))).
Proof.
  intros Hfail Hmax He. rewrite executeWithTimeout_unfold, Hmax.
  rewrite Nat2Z.id.
  destruct (attempts_all_fail cfg operation operationName (S n) 1 VNull s Hfail)
    as (x & s' & E & _ & e' & He' & ->); [lia|].
  rewrite E. cbn [fst]. rewrite He in He'. injection He' as <-.
  now rewrite Hmax.
Qed.

Lemma exhausted_error_wraps_last_witness :
  (forall k, failsWithError (Sample.badGateway k) = true) /\
  optMaxRetries (options (this Sample.fresh3)) = Z.of_nat 3 /\
  fst (executeWithTimeout Sample.config Sample.badGateway "sandbox operation"
         Sample.fresh3)
  = Throw (VError (mkError
      ("Failed to execute " ++ "sandbox operation" ++ " after "
       ++ Str.ofNumber (Z.of_nat 3) ++ " attempts. Last error: "
       ++ message (mkError "Error: 502 Bad Gateway")))).
Proof.
  split; [intros k; reflexivity|]. split; [reflexivity|].
  apply (exhausted_error_wraps_last Sample.config Sample.badGateway
           "sandbox operation" Sample.fresh3 2
           (mkError "Error: 502 Bad Gateway")).
  - intros k. reflexivity.
  - reflexivity.
  - reflexivity.
Defined.

(** X4. If no [Error] the operation fails with is timeout-like, a run
    of [executeWithTimeout] never renews the sandbox: [extendSandboxTimeout]
    is not entered, the remote [setTimeout] is not called, and
    [isExtending] is as before. *)
Theorem executeWithTimeout_no_renewal_without_timeout_error cfg {T}
    (operation : Operation T) (operationName : string) (s : State) :
  (forall k e,
     failureOf (optProcessTimeout (options (this s))) (operation k) = Some e ->
     isTimeoutError e = false) ->
  let s' := snd (executeWithTimeout cfg operation operationName s) in
  renewals s' = renewals s /\
  remoteCalls s' = remoteCalls s /\
  isExtending (this s') = isExtending (this s).
Proof.
  intros Hq s'. subst s'. rewrite executeWithTimeout_unfold.
  destruct (attempts_quiet cfg operation operationName
              (Z.to_nat (optMaxRetries (options (this s)))) 1 VNull s Hq)
    as (c & s' & a & E & St).
  rewrite E. cbn [snd].
  pose proof (st_renewals _ _ _ _ St). pose proof (st_remote _ _ _ _ St).
  pose proof (st_extending _ _ _ _ St). repeat split; first [assumption|lia].
Qed.

Lemma executeWithTimeout_no_renewal_without_timeout_error_witness :
  (forall k e,
     failureOf (optProcessTimeout (options (this Sample.lost)))
       (Further.syntaxError k) = Some e ->
     isTimeoutError e = false) /\
  renewals (snd (executeWithTimeout Sample.config Further.syntaxError
                   "code execution" Sample.lost)) = renewals Sample.lost /\
  remoteCalls (snd (executeWithTimeout Sample.config Further.syntaxError
                      "code execution" Sample.lost))
  = remoteCalls Sample.lost.
Proof.
  assert (H : forall k e,
            failureOf (optProcessTimeout (options (this Sample.lost)))
              (Further.syntaxError k) = Some e ->
            isTimeoutError e = false).
  { intros k e [= <-]. reflexivity. }
  split; [exact H|].
  destruct (executeWithTimeout_no_renewal_without_timeout_error Sample.config
              Further.syntaxError "code execution" Sample.lost H)
    as (Hr & Hc & _).
  split; [exact Hr|exact Hc].
Defined.

(** X24. A rejection with a value that is not an [Error] ends the run
    at once.  When the first [N] invocations end in an [Error], the
    next one rejects with a value [v] that is not one, and
    [N < maxRetries], [executeWithTimeout] makes exactly [N + 1]
    invocations and throws the [TypeError] of reading [v.message]: not
    [v], and not the "Failed to execute ..." error; the attempts that
    were left are not made. *)
Theorem executeWithTimeout_non_error_rejection cfg {T}
    (operation : Operation T) (operationName : string) (s : State)
    (N : nat) (v typeError : JsValue) :
  (forall k, (k < N)%nat ->
     failsWithError (operation (ops s + k)%nat) = true) ->
  operation (ops s + N)%nat = OpRejected v ->
  messageTypeError v = Some typeError ->
  Z.of_nat N < optMaxRetries (options (this s)) ->
  exists s',
    executeWithTimeout cfg operation operationName s = (Throw typeError, s') /\
    ops s' = (ops s + (N + 1))%nat.
Proof.
  intros Hfail Hv Hte HN. rewrite executeWithTimeout_unfold.
  assert (Hx : strayOf (operation (ops s + N)%nat) = Some typeError).
  { apply strayOf_spec. now exists v. }
  destruct (attempts_early_stray cfg operation operationName N
              (Z.to_nat (optMaxRetries (options (this s)))) 1 VNull s
              typeError Hfail Hx) as (s' & b & E & St); [lia..|].
  exists s'. split; [exact E|exact (st_ops _ _ _ _ St)].
Qed.

Lemma executeWithTimeout_non_error_rejection_witness :
  (forall k, (k < 0)%nat ->
     failsWithError (Sample.rejectsText (ops Sample.fresh3 + k)%nat) = true) /\
  Sample.rejectsText (ops Sample.fresh3 + 0)%nat
  = OpRejected (VPlain "'boom'") /\
  messageTypeError (VPlain "'boom'") = Some typeErrorNoMessage /\
  Z.of_nat 0 < optMaxRetries (options (this Sample.fresh3)) /\
  exists s',
    executeWithTimeout Sample.config Sample.rejectsText "sandbox operation"
      Sample.fresh3 = (Throw typeErrorNoMessage, s') /\
    ops s' = (ops Sample.fresh3 + (0 + 1))%nat.
Proof.
  assert (H : forall k, (k < 0)%nat ->
            failsWithError (Sample.rejectsText (ops Sample.fresh3 + k)%nat)
            = true) by (intros k Hk; lia).
  split; [exact H|]. split; [reflexivity|]. split; [reflexivity|].
  split; [reflexivity|].
  exact (executeWithTimeout_non_error_rejection Sample.config
           Sample.rejectsText "sandbox operation" Sample.fresh3 0
           (VPlain "'boom'") typeErrorNoMessage H eq_refl eq_refl eq_refl).
Defined.






(** X8. After a run with [maxRetries >= 1], whatever its outcome,
    [lastActivity] is the latest reading of the clock made during the
    run (every attempt ends, on success or failure, with
    [updateLastActivity], or with a renewal that makes it). *)
Theorem executeWithTimeout_stamps_activity cfg {T} (operation : Operation T)
    (operationName : string) (s : State) :
  1 <= optMaxRetries (options (this s)) ->
  let s' := snd (executeWithTimeout cfg operation operationName s) in
  clock (amb s') = clock (amb s) /\
  (clockReads (amb s) < clockReads (amb s'))%nat /\
  lastActivity (this s')
  = clock (amb s) (clockReads (amb s') - 1).
Proof.
  intros Hmax s'. subst s'. rewrite executeWithTimeout_unfold.
  destruct (attempts_paced cfg operation operationName
              (Z.to_nat (optMaxRetries (options (this s)))) 1 VNull s)
    as (c & s' & a & E & P & Ha & (k & Hk & Hl)); [lia..|].
  rewrite E. cbn [snd].
  pose proof (pc_clock _ _ _ _ P) as Hc. pose proof (pc_reads _ _ _ _ P) as Hr.
  split; [exact Hc|]. rewrite Hl, Hk, Hc.
  replace (S k - 1)%nat with k by lia. split; [lia|reflexivity].
Qed.

Lemma executeWithTimeout_stamps_activity_witness :
  1 <= optMaxRetries (options (this Sample.fresh3)) /\
  lastActivity
    (this (snd (executeWithTimeout Sample.config Sample.badGateway
                  "sandbox operation" Sample.fresh3)))
  = clock (amb Sample.fresh3)
      (clockReads
         (amb (snd (executeWithTimeout Sample.config Sample.badGateway
                      "sandbox operation" Sample.fresh3))) - 1).
Proof.
  assert (H : 1 <= optMaxRetries (options (this Sample.fresh3)))
    by (vm_compute; discriminate).
  split; [exact H|].
  exact (proj2 (proj2 (executeWithTimeout_stamps_activity Sample.config
                         Sample.badGateway "sandbox operation"
                         Sample.fresh3 H))).
Defined.

(** X9. [extendSandboxTimeout] stamps [lastActivity] exactly when the
    renewal is entered, the remote method exists and it resolves: then
    it returns normally, [lastActivity] is the next clock reading and
    the clock is read once.  In every other case (guard taken, method
    absent, method rejects) [lastActivity] is kept and the clock is not
    read. *)
Theorem extendSandboxTimeout_activity cfg (s : State) :
  let c := fst (extendSandboxTimeout cfg s) in
  let s' := snd (extendSandboxTimeout cfg s) in
  if renewalResolves cfg s then
    c = Normal tt /\
    lastActivity (this s') = clock (amb s) (clockReads (amb s)) /\
    clockReads (amb s') = S (clockReads (amb s))
  else
    lastActivity (this s') = lastActivity (this s) /\
    clockReads (amb s') = clockReads (amb s).
Proof.
  destruct s as [[[method] o la t ie] [ck cr tr tm nt]].
  unfold renewalResolves, remoteCalls. cbn -[extendSandboxTimeout].
  destruct ie; [cbn; auto|].
  destruct method as [f|]; [|cbn; auto].
  unfold extendSandboxTimeout. run. unfold awaitSetTimeout.
  cbn -[append Str.ofNumber].
  destruct (f _ _) as [x|]; run; auto.
Qed.

(** X10. A manager constructed with a resolved [autoExtendThreshold]
    of 0 starts no interval: no timer is registered, nothing is
    recorded, and [getStatus] reports [autoExtendEnabled = false]. *)
Theorem construct_without_threshold cfg (sb : Sandbox)
    (given : TimeoutManagerOptions) (a : Ambient) :
  optAutoExtendThreshold (resolveOptions cfg given) = 0 ->
  let s := construct cfg sb given a in
  autoExtendTimer (this s) = None /\
  timers (amb s) = timers a /\
  trace (amb s) = trace a /\
  nextTimer (amb s) = nextTimer a /\
  autoExtendEnabled
    match fst (getStatus s) with
    | Normal st => st
    | Throw _ => mkStatus 0 0 false true
    end = false.
Proof.
  intros H0 s. subst s. unfold construct. run.
  unfold startAutoExtendTimer. run.
  cbn [resolveOptions optAutoExtendThreshold] in H0. rewrite H0.
  cbn. auto.
Qed.

Lemma construct_without_threshold_witness :
  optAutoExtendThreshold (resolveOptions Sample.config Further.noThreshold)
  = 0 /\
  autoExtendTimer
    (this (construct Sample.config Sample.bareSandbox Further.noThreshold
             Sample.ambient0)) = None /\
  timers
    (amb (construct Sample.config Sample.bareSandbox Further.noThreshold
            Sample.ambient0)) = timers Sample.ambient0.
Proof.
  split; [reflexivity|].
  destruct (construct_without_threshold Sample.config Sample.bareSandbox
              Further.noThreshold Sample.ambient0 eq_refl)
    as (Ht & Hm & _).
  split; [exact Ht|exact Hm].
Defined.

(** X11. [setGlobalTimeoutManager manager]: the slot then holds
    [manager]; every manager other than the one the slot held is
    untouched; if the slot was empty, or held a manager without a
    running interval, the heap and the world are unchanged. *)
Theorem setGlobalTimeoutManager_frame (rt : Runtime) (manager : option nat) :
  let rt' := setGlobalTimeoutManager manager rt in
  getGlobalTimeoutManager rt' = manager /\
  (forall r, globalTimeoutManager rt <> Some r ->
     heap rt' !! r = heap rt !! r) /\
  (globalTimeoutManager rt = None ->
   heap rt' = heap rt /\ ambient rt' = ambient rt) /\
  (forall r m, globalTimeoutManager rt = Some r -> heap rt !! r = Some m ->
     autoExtendTimer m = None ->
     heap rt' = heap rt /\ ambient rt' = ambient rt).
Proof.
  intros rt'. subst rt'. unfold setGlobalTimeoutManager, cleanupPrevious.
  destruct rt as [h g a]. cbn.
  split; [reflexivity|]. split; [|split].
  - intros r Hr. destruct g as [p|]; [|reflexivity].
    unfold callOn. cbn. destruct (h !! p) as [m|] eqn:Hp; [|reflexivity].
    destruct m as [sb o la [id|] ie]; cbn; apply lookup_insert_ne; congruence.
  - intros ->. auto.
  - intros r m -> Hm Ht. unfold callOn. cbn. rewrite Hm.
    destruct m as [sb o la t ie]. cbn in Ht. subst t. cbn.
    split; [|reflexivity]. now apply insert_id.
Qed.

(** X12. Installing the manager the slot already holds: the code
    cleans it up before storing it again, so the slot ends up holding a
    manager whose interval has been cleared, and its [getStatus] reports
    [autoExtendEnabled = false]. *)
Theorem setGlobalTimeoutManager_same_manager (rt : Runtime) (r id : nat)
    (m : SandboxTimeoutManager) :
  globalTimeoutManager rt = Some r ->
  heap rt !! r = Some m ->
  autoExtendTimer m = Some id ->
  let rt' := setGlobalTimeoutManager (Some r) rt in
  getGlobalTimeoutManager rt' = Some r /\
  heap rt' !! r = Some (setAutoExtendTimer None m) /\
  timers (ambient rt') !! id = None /\
  forall s,
    this s = setAutoExtendTimer None m ->
    fst (getStatus s)
    = Normal (mkStatus (lastActivity m)
                (clock (amb s) (clockReads (amb s)) - lastActivity m)
                (isExtending m) false).
Proof.
  intros Hslot Hm Ht rt'. subst rt'.
  unfold setGlobalTimeoutManager, cleanupPrevious, callOn. rewrite Hslot, Hm.
  destruct rt as [h g [ck cr tr tm nt]]. destruct m as [sb o la t ie].
  cbn in *. subst t. cbn.
  split; [reflexivity|]. split; [apply lookup_insert_eq|].
  split; [apply lookup_delete_eq|].
  intros [m' a'] Hs. cbn in Hs. subst m'. reflexivity.
Qed.

Lemma setGlobalTimeoutManager_same_manager_witness :
  globalTimeoutManager Sample.installed = Some O /\
  heap Sample.installed !! O = Some (this Sample.fresh3) /\
  autoExtendTimer (this Sample.fresh3) = Some O /\
  getGlobalTimeoutManager (setGlobalTimeoutManager (Some O) Sample.installed)
  = Some O /\
  heap (setGlobalTimeoutManager (Some O) Sample.installed) !! O
  = Some (setAutoExtendTimer None (this Sample.fresh3)) /\
  timers (ambient (setGlobalTimeoutManager (Some O) Sample.installed)) !! O
  = None.
Proof.
  assert (Hslot : globalTimeoutManager Sample.installed = Some O)
    by reflexivity.
  assert (Hm : heap Sample.installed !! O = Some (this Sample.fresh3))
    by reflexivity.
  assert (Ht : autoExtendTimer (this Sample.fresh3) = Some O) by reflexivity.
  destruct (setGlobalTimeoutManager_same_manager Sample.installed O O
              (this Sample.fresh3) Hslot Hm Ht) as (Hg & Hh & Hc & _).
  repeat (split; [assumption|]). assumption.
Defined.

(** X13. [createTimeoutManager] followed by [setGlobalTimeoutManager]
    with a slot that holds a manager [m]: the new manager is another
    object than [m]; the slot holds the new one; [m] has been cleaned up
    and its interval is no longer running; the new manager's interval
    is running. *)
Theorem create_then_install cfg (sb : Sandbox)
    (given : TimeoutManagerOptions) (rt : Runtime) (previous : nat)
    (m : SandboxTimeoutManager) :
  globalTimeoutManager rt = Some previous ->
  heap rt !! previous = Some m ->
  autoExtendTimer m <> Some (nextTimer (ambient rt)) ->
  optAutoExtendThreshold (resolveOptions cfg given) <> 0 ->
  let r := fst (createTimeoutManager cfg sb given rt) in
  let rt' :=
    setGlobalTimeoutManager (Some r)
      (snd (createTimeoutManager cfg sb given rt)) in
  r <> previous /\
  getGlobalTimeoutManager rt' = Some r /\
  heap rt' !! previous = Some (setAutoExtendTimer None m) /\
  (exists fresh,
     heap rt' !! r = Some fresh /\
     autoExtendTimer fresh = Some (nextTimer (ambient rt)) /\
     is_Some (timers (ambient rt') !! nextTimer (ambient rt))) /\
  (forall id, autoExtendTimer m = Some id ->
     timers (ambient rt') !! id = None).
Proof.
  intros Hslot Hm Hid Hth r rt'. subst rt' r.
  unfold createTimeoutManager. cbn [fst snd].
  assert (Hfresh : heap rt !! fresh (dom (heap rt)) = None).
  { apply not_elem_of_dom. apply is_fresh. }
  set (r := fresh (dom (heap rt))) in *. clearbody r.
  assert (Hne : r <> previous) by congruence.
  assert (Hne' : previous <> r) by congruence.
  split; [exact Hne|].
  unfold setGlobalTimeoutManager, cleanupPrevious, callOn.
  cbn [globalTimeoutManager heap ambient].
  rewrite Hslot. rewrite lookup_insert_ne by exact Hne. rewrite Hm.
  unfold construct. run. unfold startAutoExtendTimer. run.
  cbn [resolveOptions optAutoExtendThreshold] in Hth.
  destruct (Z.eqb_spec (default (cfgAutoExtendThreshold (e2b cfg))
                          (autoExtendThreshold given)) 0) as [|_];
    [contradiction|].
  unfold setInterval. run.
  destruct m as [sbm om lam tm iem]. cbn in Hid.
  unfold cleanup. run.
  destruct tm as [id|]; run.
  - split; [reflexivity|]. split; [apply lookup_insert_eq|]. split.
    + eexists. split.
      * rewrite lookup_insert_ne by exact Hne'. apply lookup_insert_eq.
      * split; [reflexivity|]. rewrite lookup_delete_ne by congruence.
        rewrite lookup_insert_eq. eauto.
    + intros id' [= <-]. apply lookup_delete_eq.
  - split; [reflexivity|]. split; [apply lookup_insert_eq|]. split.
    + eexists. split.
      * rewrite lookup_insert_ne by exact Hne'. apply lookup_insert_eq.
      * split; [reflexivity|]. rewrite lookup_insert_eq. eauto.
    + intros id' [=].
Qed.

Lemma create_then_install_witness :
  globalTimeoutManager Sample.installed = Some O /\
  heap Sample.installed !! O = Some (this Sample.fresh3) /\
  autoExtendTimer (this Sample.fresh3)
  <> Some (nextTimer (ambient Sample.installed)) /\
  optAutoExtendThreshold (resolveOptions Sample.config Sample.threeRetries)
  <> 0 /\
  heap
    (setGlobalTimeoutManager
       (Some (fst (createTimeoutManager Sample.config Sample.lostSandbox
                     Sample.threeRetries Sample.installed)))
       (snd (createTimeoutManager Sample.config Sample.lostSandbox
               Sample.threeRetries Sample.installed))) !! O
  = Some (setAutoExtendTimer None (this Sample.fresh3)).
Proof.
  assert (Hslot : globalTimeoutManager Sample.installed = Some O)
    by reflexivity.
  assert (Hm : heap Sample.installed !! O = Some (this Sample.fresh3))
    by reflexivity.
  assert (Hid : autoExtendTimer (this Sample.fresh3)
                <> Some (nextTimer (ambient Sample.installed)))
    by discriminate.
  assert (Hth : optAutoExtendThreshold
                  (resolveOptions Sample.config Sample.threeRetries) <> 0)
    by discriminate.
  repeat (split; [assumption|]).
  exact (proj1 (proj2 (proj2
           (create_then_install Sample.config Sample.lostSandbox
              Sample.threeRetries Sample.installed O (this Sample.fresh3)
              Hslot Hm Hid Hth)))).
Defined.

(** X14. [isSandboxActive] never throws.  It returns [true] exactly
    when one of the first [maxRetries] ping attempts succeeds, every
    attempt before it having ended in an [Error], and it stops at that
    success.  It returns [false] when all [maxRetries] attempts end in
    an [Error], or when, before any success, a ping rejects with a
    value that is not an [Error] (no attempt follows that one); in both
    cases the last message logged is "Sandbox health check failed:"
    with the value caught. *)
Theorem isSandboxActive_verdict cfg {R}
    (runCode : string -> option (gmap string JsProp) -> Operation R)
    (s : State) :
  let n := Z.to_nat (optMaxRetries (options (this s))) in
  exists b s',
    isSandboxActive cfg runCode s = (Normal b, s') /\
    (b = true ->
     exists N, (N < n)%nat /\
       (forall k, (k < N)%nat ->
          failsWithError (runCode pingCode None (ops s + k)%nat) = true) /\
       fails (runCode pingCode None (ops s + N)%nat) = false /\
       ops s' = (ops s + (N + 1))%nat) /\
    (b = false ->
     ((forall k, (k < n)%nat ->
         failsWithError (runCode pingCode None (ops s + k)%nat) = true) /\
      ops s' = (ops s + n)%nat
      \/
      exists N v, (N < n)%nat /\
        (forall k, (k < N)%nat ->
           failsWithError (runCode pingCode None (ops s + k)%nat) = true) /\
        runCode pingCode None (ops s + N)%nat = OpRejected v /\
        messageTypeError v <> None /\
        ops s' = (ops s + (N + 1))%nat) /\
     exists x rest,
       trace (amb s') = Console LevelError healthFailedText (Some x) :: rest).
Proof.
  intros n. subst n.
  set (ping := fun k => settleOnly (runCode pingCode None k)).
  unfold isSandboxActive. fold ping. unfold tryCatch, bind.
  rewrite executeWithTimeout_unfold.
  destruct (first_success_or_none ping (ops s)
              (Z.to_nat (optMaxRetries (options (this s)))))
    as [(N & HN & Hf & Hs)|Hall].
  - assert (Hf' : forall k, (k < N)%nat ->
              failsWithError (runCode pingCode None (ops s + k)%nat) = true).
    { intros k Hk. rewrite <- failsWithError_settleOnly. exact (Hf k Hk). }
    destruct (not_failsWithError _ Hs) as [([] & Hp)|(x & Hx)].
    + destruct (attempts_early_success cfg ping "sandbox health check" N
                  (Z.to_nat (optMaxRetries (options (this s)))) 1 VNull s tt
                  Hf Hp HN) as (s' & E & St); [lia|].
      rewrite E. exists true, s'. split; [reflexivity|].
      split; [|discriminate].
      intros _. exists N. split; [exact HN|]. split; [exact Hf'|].
      split; [|exact (st_ops _ _ _ _ St)].
      rewrite <- fails_settleOnly. fold (ping (ops s + N)%nat).
      now rewrite Hp.
    + destruct (attempts_early_stray cfg ping "sandbox health check" N
                  (Z.to_nat (optMaxRetries (options (this s)))) 1 VNull s x
                  Hf Hx HN) as (s' & b & E & St); [lia|].
      rewrite E. cbn. eexists false, _. split; [reflexivity|].
      split; [discriminate|]. intros _. split.
      * right. unfold ping in Hx. rewrite strayOf_settleOnly in Hx.
        apply strayOf_spec in Hx. destruct Hx as (v & Hv & Hm).
        exists N, v. split; [exact HN|]. split; [exact Hf'|].
        split; [exact Hv|]. split; [congruence|].
        destruct s' as [m a]. unfold ops in *. cbn.
        exact (st_ops _ _ _ _ St).
      * destruct s' as [m a]. cbn. eauto.
  - assert (Hall' : forall k,
              (k < Z.to_nat (optMaxRetries (options (this s))))%nat ->
              failsWithError (runCode pingCode None (ops s + k)%nat) = true).
    { intros k Hk. rewrite <- failsWithError_settleOnly. exact (Hall k Hk). }
    destruct (Z.to_nat (optMaxRetries (options (this s)))) as [|n'] eqn:Hn.
    + cbn. eexists false, _. split; [reflexivity|]. split; [discriminate|].
      intros _. split.
      * left. split; [intros k Hk; lia|].
        destruct s as [m a]. unfold ops. cbn. now rewrite Nat.add_0_r.
      * destruct s as [m a]. cbn. eauto.
    + destruct (attempts_fail_range cfg ping "sandbox health check" (S n') 1
                  VNull s Hall) as (x & s' & b & E & St & _); [lia|].
      rewrite E. cbn. eexists false, _. split; [reflexivity|].
      split; [discriminate|]. intros _. split.
      * left. split; [exact Hall'|].
        destruct s' as [m a]. unfold ops in *. cbn.
        exact (st_ops _ _ _ _ St).
      * destruct s' as [m a]. cbn. eauto.
Qed.

(** X15. With [maxRetries <= 0], [isSandboxActive] reports [false]
    without sending a ping: the only effect is the log
    "Sandbox health check failed:" with [null] as the error. *)
Theorem isSandboxActive_without_retries cfg {R}
    (runCode : string -> option (gmap string JsProp) -> Operation R)
    (s : State) :
  optMaxRetries (options (this s)) <= 0 ->
  isSandboxActive cfg runCode s
  = (Normal false,
     withAmb (pushEvent (Console LevelError healthFailedText (Some VNull))) s).
Proof.
  intros H. unfold isSandboxActive, tryCatch, bind.
  rewrite executeWithTimeout_unfold.
  replace (Z.to_nat (optMaxRetries (options (this s)))) with O by lia.
  reflexivity.
Qed.

Lemma isSandboxActive_without_retries_witness :
  optMaxRetries (options (this Sample.fresh0)) <= 0 /\
  isSandboxActive Sample.config Further.deadRunCode Sample.fresh0
  = (Normal false,
     withAmb (pushEvent (Console LevelError healthFailedText (Some VNull)))
       Sample.fresh0).
Proof.
  assert (H : optMaxRetries (options (this Sample.fresh0)) <= 0)
    by (vm_compute; discriminate).
  split; [exact H|].
  exact (isSandboxActive_without_retries Sample.config Further.deadRunCode
           Sample.fresh0 H).
Defined.

(** X16. [executeCodeWithTimeout code options] is [executeWithTimeout]
    on [runCode(code, { timeout: processTimeout, ...options })] under
    the name "code execution": a [timeout] of the caller overrides
    [processTimeout] in what is sent, every other member is passed
    through; the local race timer of every attempt is of
    [processTimeout] ms whatever the caller passed. *)
Theorem executeCodeWithTimeout_timeouts cfg {R}
    (runCode : string -> option (gmap string JsProp) -> Operation R)
    (code : string) (callerOptions : gmap string JsProp) (s : State) :
  let pt := optProcessTimeout (options (this s)) in
  let sent := codeOptions pt callerOptions in
  let run := executeCodeWithTimeout cfg runCode code callerOptions s in
  run = executeWithTimeout cfg (runCode code (Some sent)) "code execution" s /\
  sent !! "timeout" = Some (default (PNumber pt) (callerOptions !! "timeout")) /\
  (forall key, key <> "timeout" -> sent !! key = callerOptions !! key) /\
  (count isRaceTimer (trace (amb (snd run)))
   = count isRaceTimer (trace (amb s)) + (ops (snd run) - ops s))%nat /\
  (count (isRaceTimerOf pt) (trace (amb (snd run)))
   = count (isRaceTimerOf pt) (trace (amb s)) + (ops (snd run) - ops s))%nat.
Proof.
  intros pt sent run. subst run sent pt.
  split; [reflexivity|]. split; [|split].
  - rewrite codeOptions_lookup. destruct (callerOptions !! "timeout"); reflexivity.
  - intros key Hk. rewrite codeOptions_lookup.
    destruct (callerOptions !! key); [reflexivity|]. now case_decide.
  - change (executeCodeWithTimeout cfg runCode code callerOptions s)
      with (executeWithTimeout cfg
              (runCode code
                 (Some (codeOptions
                          (optProcessTimeout (options (this s)))
                          callerOptions))) "code execution" s).
    rewrite executeWithTimeout_unfold.
    destruct (Z.to_nat (optMaxRetries (options (this s))))
      as [|n] eqn:Hn.
    + cbn. split; lia.
    + match goal with
      | |- context [attempts cfg ?op ?name _ _ _ _] =>
          destruct (attempts_paced cfg op name (S n) 1 VNull s)
            as (c & s' & a & E & [P1 P2 P3 P4 P5 P6 P7 P8] & _);
            [lia..|]
      end.
      rewrite E. cbn [snd]. rewrite P4, P5, P6. split; lia.
Qed.

(** X17. [executeProcessWithTimeout cmd options]: the arguments sent
    are [{ cmd, timeout: processTimeout, ...options }], so [cmd] and
    [timeout] of the caller's object override; a process is returned
    only if, in one and the same attempt, [start] fulfilled with it and
    its [wait] fulfilled; otherwise the throw is [null], or the error
    "Failed to execute process: <cmd> after <maxRetries> attempts. Last
    error: ..." wrapping the [Error] of some attempt, or the [TypeError]
    of classifying a value an attempt rejected with that is not an
    [Error]. *)
Theorem executeProcessWithTimeout_outcome cfg {P}
    (processStart : gmap string JsProp -> Operation P)
    (processWait : P -> Operation unit)
    (cmd : string) (callerOptions : gmap string JsProp) (s : State) :
  let pt := optProcessTimeout (options (this s)) in
  let args := processArgs cmd pt callerOptions in
  args !! "cmd" = Some (default (PString cmd) (callerOptions !! "cmd")) /\
  args !! "timeout" = Some (default (PNumber pt) (callerOptions !! "timeout")) /\
  match fst (executeProcessWithTimeout cfg processStart processWait cmd
               callerOptions s) with
  | Normal process =>
      exists k,
        processStart args k = OpFulfilled process /\
        processWait process k = OpFulfilled tt
  | Throw x =>
      x = VNull \/
      (exists e k,
         failureOf pt (processOperation processStart processWait args k)
         = Some e /\
         x = VError (mkError
               ("Failed to execute process: " ++ cmd ++ " after "
                ++ Str.ofNumber (optMaxRetries (options (this s)))
                ++ " attempts. Last error: " ++ message e))) \/
      (exists v k,
         processOperation processStart processWait args k = OpRejected v /\
         messageTypeError v = Some x)
  end.
Proof.
  intros pt args. subst args pt.
  split; [|split].
  - rewrite processArgs_lookup. destruct (callerOptions !! "cmd"); reflexivity.
  - rewrite processArgs_lookup. destruct (callerOptions !! "timeout"); reflexivity.
  - change (executeProcessWithTimeout cfg processStart processWait cmd
              callerOptions s)
      with (executeWithTimeout cfg
              (processOperation processStart processWait
                 (processArgs cmd
                    (optProcessTimeout (options (this s))) callerOptions))
              ("process: " ++ cmd) s).
    rewrite executeWithTimeout_unfold.
    match goal with
    | |- context [attempts cfg ?op ?name ?n _ _ _] =>
        destruct (attempts_run cfg op name n 1 VNull s)
          as (c & s' & a & b & E & St & _ & Hc)
    end.
    { destruct (Z.to_nat _) eqn:Hn; [now left|right; lia]. }
    rewrite E. cbn [fst]. destruct c as [p|x].
    + destruct Hc as (k & Hk). exists k. unfold processOperation in Hk.
      destruct (processStart _ k) as [p'| |]; try discriminate.
      destruct (processWait p' k) as [[]| |] eqn:Hw; try discriminate.
      injection Hk as <-. auto.
    + destruct Hc as [[_ ->]|[(e & k & He & ->)|(k & Hk)]]; [now left| |].
      * right. left. exists e, k. split; [exact He|].
        unfold exhaustedMessage. now rewrite append_assoc.
      * right. right. apply strayOf_spec in Hk.
        destruct Hk as (v & Hv & Hx). now exists v, k.
Qed.

(** X18. If every [start] succeeds and every [wait] ends in an [Error],
    [executeProcessWithTimeout] throws after [maxRetries] attempts: the
    process is started anew on each attempt, [maxRetries] times in
    all. *)
Theorem executeProcessWithTimeout_restarts cfg {P}
    (processStart : gmap string JsProp -> Operation P)
    (processWait : P -> Operation unit)
    (cmd : string) (callerOptions : gmap string JsProp) (s : State) :
  let args :=
    processArgs cmd (optProcessTimeout (options (this s))) callerOptions in
  (forall k, exists process,
      processStart args k = OpFulfilled process /\
      failsWithError (processWait process k) = true) ->
  0 <= optMaxRetries (options (this s)) ->
  exists x s',
    executeProcessWithTimeout cfg processStart processWait cmd callerOptions s
    = (Throw x, s') /\
    Z.of_nat (ops s' - ops s) = optMaxRetries (options (this s)).
Proof.
  intros args Hk Hmax. subst args.
  change (executeProcessWithTimeout cfg processStart processWait cmd
            callerOptions s)
    with (executeWithTimeout cfg
            (processOperation processStart processWait
               (processArgs cmd
                  (optProcessTimeout (options (this s))) callerOptions))
            ("process: " ++ cmd) s).
  rewrite executeWithTimeout_unfold.
  match goal with
  | |- context [attempts cfg ?op ?name ?n _ _ _] =>
      destruct (attempts_all_fail cfg op name n 1 VNull s)
        as (x & s' & E & St & _)
  end.
  { intros k. destruct (Hk k) as (p & Hs & Hw). unfold processOperation.
    rewrite Hs.
    destruct (processWait p k) as [u|[e| | |w]|]; cbn in *; congruence. }
  { lia. }
  exists x, s'. split; [exact E|]. rewrite (st_ops _ _ _ _ St). lia.
Qed.

Lemma executeProcessWithTimeout_restarts_witness :
  (forall k, exists process,
      Further.startsFine
        (processArgs "npm run dev"
           (optProcessTimeout (options (this Sample.fresh3))) ∅) k
      = OpFulfilled process /\
      failsWithError (Further.waitFails process k) = true) /\
  0 <= optMaxRetries (options (this Sample.fresh3)) /\
  exists x s',
    executeProcessWithTimeout Sample.config Further.startsFine
      Further.waitFails "npm run dev" ∅ Sample.fresh3 = (Throw x, s') /\
    Z.of_nat (ops s' - ops Sample.fresh3)
    = optMaxRetries (options (this Sample.fresh3)).
Proof.
  assert (Hk : forall k, exists process,
            Further.startsFine
              (processArgs "npm run dev"
                 (optProcessTimeout (options (this Sample.fresh3))) ∅) k
            = OpFulfilled process /\
            failsWithError (Further.waitFails process k) = true).
  { intros k. exists k. split; reflexivity. }
  assert (H0 : 0 <= optMaxRetries (options (this Sample.fresh3)))
    by (vm_compute; discriminate).
  split; [exact Hk|]. split; [exact H0|].
  exact (executeProcessWithTimeout_restarts Sample.config Further.startsFine
           Further.waitFails "npm run dev" ∅ Sample.fresh3 Hk H0).
Defined.

(** ** Properties of the route *)

Section RouteFacts.

Variable cfg : AppConfig.
Context {R : Type}.
Variable runCode : string -> option (gmap string JsProp) -> Operation R.
Variable toISOString : Z -> string.

Lemma isSandboxActive_returns (s : State) :
  exists b s', isSandboxActive cfg runCode s = (Normal b, s').
Proof.
  unfold isSandboxActive, tryCatch, bind.
  destruct (executeWithTimeout cfg _ "sandbox health check" s) as [[[]|x] s1];
    cbn; eauto.
Qed.

Lemma isSandboxActive_stamps (s : State) :
  1 <= optMaxRetries (options (this s)) ->
  let s' := snd (isSandboxActive cfg runCode s) in
  clock (amb s') = clock (amb s) /\
  exists k,
    (clockReads (amb s) <= k)%nat /\
    clockReads (amb s') = S k /\
    lastActivity (this s') = clock (amb s) k.
Proof.
  intros Hmax s'. subst s'.
  unfold isSandboxActive, tryCatch, bind. rewrite executeWithTimeout_unfold.
  match goal with
  | |- context [attempts cfg ?op ?name ?n _ _ _] =>
      destruct (attempts_paced cfg op name n 1 VNull s)
        as (c & s' & a & E & P & Ha & (k & Hk & Hl)); [lia..|]
  end.
  rewrite E.
  pose proof (pc_clock _ _ _ _ P) as Hc. pose proof (pc_reads _ _ _ _ P) as Hr.
  destruct c as [[]|x]; cbn; destruct s' as [m a']; cbn in *;
    (split; [exact Hc|]); exists k; rewrite <- Hc; repeat split; auto; lia.
Qed.

(** X19. [POST] answers a failure body and changes nothing when
    there is no active sandbox (404), when the slot holds no manager,
    or when the action is neither "extend_timeout" nor "health_check"
    (400 if a sandbox is active). *)
Theorem POST_turned_down (action : option string) (g : Globals)
    (rt : Runtime) :
  activeSandbox g = false \/
  getGlobalTimeoutManager rt = None \/
  (default "" action <> "extend_timeout" /\
   default "" action <> "health_check") ->
  exists text,
    POST cfg runCode (Normal action) g rt
    = (Normal (mkResponse (BodyFailure (Some text) None)
                 (if activeSandbox g then 400 else 404)), rt).
Proof.
  intros H. unfold POST, answerError.
  destruct (activeSandbox g); cbn [negb]; [|eauto].
  destruct H as [H|[H|[H1 H2]]]; [discriminate| |].
  - rewrite H. destruct (String.eqb _ "extend_timeout"); [eauto|].
    destruct (String.eqb _ "health_check"); eauto.
  - apply String.eqb_neq in H1, H2. rewrite H1, H2. eauto.
Qed.

(** X20. [POST] with action "extend_timeout" answers 200 "Sandbox
    timeout extended successfully" also when nothing was extended: when
    the manager is already extending, or the sandbox has no [setTimeout]
    method, the remote method is not called, the manager is unchanged
    and the clock is not read. *)
Theorem POST_extend_skipped (g : Globals) (rt : Runtime) (r : nat)
    (m : SandboxTimeoutManager) :
  activeSandbox g = true ->
  getGlobalTimeoutManager rt = Some r ->
  heap rt !! r = Some m ->
  isExtending m = true \/ setTimeout (sandbox m) = None ->
  exists rt',
    POST cfg runCode (Normal (Some "extend_timeout")) g rt
    = (Normal (mkResponse
         (BodyMessage "Sandbox timeout extended successfully") 200), rt') /\
    heap rt' = heap rt /\
    count isSandboxSetTimeout (trace (ambient rt'))
    = count isSandboxSetTimeout (trace (ambient rt)) /\
    clockReads (ambient rt') = clockReads (ambient rt).
Proof.
  intros Hact Hslot Hm Hskip. unfold POST, answerError, onManager, callOn.
  rewrite Hact, Hslot, Hm. cbn [negb default String.eqb].
  change ("extend_timeout" =? "extend_timeout")%string with true. cbn iota.
  destruct rt as [h gs a]. cbn [heap ambient globalTimeoutManager] in *.
  assert (Hnoop : exists s',
            extendSandboxTimeout cfg (mkState m a) = (Normal tt, s') /\
            this s' = m /\
            remoteCalls s' = remoteCalls (mkState m a) /\
            clockReads (amb s') = clockReads a).
  { destruct (isExtending m) eqn:Hb.
    - rewrite (extend_busy cfg (mkState m a) Hb). eexists.
      split; [reflexivity|]. cbn. auto.
    - destruct Hskip as [|Hnone]; [discriminate|].
      rewrite (extend_absent cfg (mkState m a) Hb Hnone). eexists.
      split; [reflexivity|]. cbn. auto. }
  destruct Hnoop as (s' & E & Hthis & Hrem & Hclk). rewrite E.
  eexists. split; [reflexivity|]. cbn [heap ambient].
  split; [|split; [exact Hrem|exact Hclk]].
  rewrite Hthis. now apply insert_id.
Qed.

(** X21. [POST] with action "extend_timeout" when the remote
    [setTimeout] rejects with [x]: the answer is 500 with the message of
    [x]; reading [message] off [null] or [undefined] throws a TypeError
    out of the handler, and a value without a [message] gives a body
    without the member [error].  The manager is left with
    [isExtending = false] as before, and the route logs
    "[sandbox-health] Error:" after the one remote call. *)
Theorem POST_extend_rejected (g : Globals) (rt : Runtime) (r : nat)
    (m : SandboxTimeoutManager) (method : nat -> Z -> option JsValue)
    (x : JsValue) :
  activeSandbox g = true ->
  getGlobalTimeoutManager rt = Some r ->
  heap rt !! r = Some m ->
  isExtending m = false ->
  setTimeout (sandbox m) = Some method ->
  method (count isSandboxSetTimeout (trace (ambient rt))) (timeoutMs (e2b cfg))
  = Some x ->
  let out := POST cfg runCode (Normal (Some "extend_timeout")) g rt in
  fst out
  = match x with
    | VError e =>
        Normal (mkResponse (BodyFailure (Some (message e)) None) 500)
    | VNull => Throw typeErrorNull
    | VUndefined => Throw typeErrorUndefined
    | VPlain _ => Normal (mkResponse (BodyFailure None None) 500)
    end /\
  heap (snd out) = heap rt /\
  trace (ambient (snd out))
  = Console LevelError healthErrorText (Some x)
    :: SandboxSetTimeout (timeoutMs (e2b cfg)) (Some x)
    :: EnterExtend :: trace (ambient rt).
Proof.
  intros Hact Hslot Hm Hfree Hmeth Hx out. subst out.
  unfold POST, answerError, onManager, callOn.
  rewrite Hact, Hslot, Hm. cbn [negb default String.eqb].
  change ("extend_timeout" =? "extend_timeout")%string with true. cbn iota.
  destruct rt as [h gs a]. cbn [heap ambient globalTimeoutManager] in *.
  rewrite (extend_rejected cfg (mkState m a) method x Hfree Hmeth Hx).
  destruct x as [e| | |w]; cbn; (split; [reflexivity|]);
    (split; [now apply insert_id|reflexivity]).
Qed.

(** X22. [POST] with action "health_check" always answers 200, with
    [isActive] the verdict of [isSandboxActive] and [status] "healthy"
    or "unresponsive" accordingly; with [maxRetries <= 0] the verdict is
    "unresponsive" whatever the sandbox does. *)
Theorem POST_health_check_answers (g : Globals) (rt : Runtime) (r : nat)
    (m : SandboxTimeoutManager) :
  activeSandbox g = true ->
  getGlobalTimeoutManager rt = Some r ->
  heap rt !! r = Some m ->
  exists b s',
    isSandboxActive cfg runCode (mkState m (ambient rt)) = (Normal b, s') /\
    POST cfg runCode (Normal (Some "health_check")) g rt
    = (Normal (mkResponse
         (BodyHealth b (if b then "healthy" else "unresponsive")) 200),
       mkRuntime (<[r := this s']> (heap rt)) (Some r) (amb s')) /\
    (optMaxRetries (options m) <= 0 -> b = false).
Proof.
  intros Hact Hslot Hm. unfold POST, answerError, onManager, callOn.
  rewrite Hact, Hslot, Hm. cbn [negb default].
  change ("health_check" =? "extend_timeout")%string with false.
  change ("health_check" =? "health_check")%string with true. cbn iota.
  destruct (isSandboxActive_returns (mkState m (ambient rt))) as (b & s' & E).
  exists b, s'. split; [exact E|]. rewrite E.
  destruct rt as [h gs a]. cbn in Hslot. subst gs. split; [reflexivity|].
  intros Hz. cbn in E.
  unfold isSandboxActive, tryCatch, bind in E.
  rewrite executeWithTimeout_unfold in E. cbn [this options] in E.
  replace (Z.to_nat (optMaxRetries (options m))) with O in E by lia.
  cbn in E. now injection E as <- _.
Qed.

(** X23. [GET] with a manager installed and [maxRetries >= 1]
    answers 200; the status it reports was taken BEFORE the ping, so it
    shows the [lastActivity] of before the request and the time since,
    while the manager's [lastActivity] afterwards is a later clock
    reading made during the ping; the timestamp is read last. *)
Theorem GET_reports_status_before_ping (g : Globals) (rt : Runtime) (r : nat)
    (m : SandboxTimeoutManager) :
  activeSandbox g = true ->
  getGlobalTimeoutManager rt = Some r ->
  heap rt !! r = Some m ->
  1 <= optMaxRetries (options m) ->
  exists info st rt' m' k,
    GET cfg runCode toISOString g rt
    = (Normal (mkResponse
         (BodyReport info (Some st)
            (toISOString (clock (ambient rt) (S k)))) 200), rt') /\
    hasTimeoutManager info = true /\
    statusLastActivity st = lastActivity m /\
    timeSinceLastActivity st
    = clock (ambient rt) (clockReads (ambient rt)) - lastActivity m /\
    heap rt' !! r = Some m' /\
    (clockReads (ambient rt) < k)%nat /\
    lastActivity m' = clock (ambient rt) k /\
    clockReads (ambient rt') = S (S k).
Proof.
  intros Hact Hslot Hm Hmax. unfold GET, answerError, onManager, callOn.
  rewrite Hact, Hslot, Hm. cbn [negb].
  destruct rt as [h gs [ck cr tr tm nt]]. destruct m as [sb o la t ie].
  cbn [heap ambient globalTimeoutManager] in *.
  unfold getStatus at 1. run.
  rewrite lookup_insert_eq.
  match goal with
  | |- context [isSandboxActive cfg runCode ?s0] =>
      destruct (isSandboxActive_returns s0) as (b & s' & E);
      pose proof (isSandboxActive_stamps s0 Hmax) as (Hc & k & Hk1 & Hk2 & Hk3);
      rewrite E in *
  end.
  cbn [snd] in Hc, Hk2, Hk3. cbn in Hc, Hk1, Hk3.
  destruct s' as [m' [ck' cr' tr' tm' nt']]. cbn in *. subst ck' cr'.
  unfold report. cbn.
  eexists _, _, _, m', k. split; [reflexivity|]. cbn.
  repeat split; auto; try lia. apply lookup_insert_eq.
Qed.

End RouteFacts.

Lemma POST_turned_down_witness :
  (default "" (Some "reboot") <> "extend_timeout" /\
   default "" (Some "reboot") <> "health_check") /\
  exists text,
    POST Sample.config Further.deadRunCode (Normal (Some "reboot"))
      Further.globals Further.withLost
    = (Normal (mkResponse (BodyFailure (Some text) None)
                 (if activeSandbox Further.globals then 400 else 404)),
       Further.withLost).
Proof.
  assert (H : default "" (Some "reboot") <> "extend_timeout" /\
              default "" (Some "reboot") <> "health_check")
    by (split; discriminate).
  split; [exact H|].
  exact (POST_turned_down Sample.config Further.deadRunCode (Some "reboot")
           Further.globals Further.withLost (or_intror (or_intror H))).
Defined.

Lemma POST_extend_skipped_witness :
  activeSandbox Further.globals = true /\
  getGlobalTimeoutManager Further.withBusy = Some O /\
  heap Further.withBusy !! O = Some (this Sample.busy) /\
  isExtending (this Sample.busy) = true /\
  exists rt',
    POST Sample.config Further.deadRunCode (Normal (Some "extend_timeout"))
      Further.globals Further.withBusy
    = (Normal (mkResponse
         (BodyMessage "Sandbox timeout extended successfully") 200), rt') /\
    heap rt' = heap Further.withBusy /\
    count isSandboxSetTimeout (trace (ambient rt'))
    = count isSandboxSetTimeout (trace (ambient Further.withBusy)) /\
    clockReads (ambient rt') = clockReads (ambient Further.withBusy).
Proof.
  split; [reflexivity|]. split; [reflexivity|]. split; [reflexivity|].
  split; [reflexivity|].
  exact (POST_extend_skipped Sample.config Further.deadRunCode
           Further.globals Further.withBusy O (this Sample.busy)
           eq_refl eq_refl eq_refl (or_introl eq_refl)).
Defined.

Lemma POST_extend_rejected_witness :
  activeSandbox Further.globals = true /\
  getGlobalTimeoutManager Further.withLost = Some O /\
  heap Further.withLost !! O = Some (this Sample.lost) /\
  isExtending (this Sample.lost) = false /\
  fst (POST Sample.config Further.deadRunCode
         (Normal (Some "extend_timeout")) Further.globals Further.withLost)
  = Normal (mkResponse (BodyFailure (Some "sandbox was not found") None)
             500) /\
  heap (snd (POST Sample.config Further.deadRunCode
               (Normal (Some "extend_timeout")) Further.globals
               Further.withLost))
  = heap Further.withLost.
Proof.
  split; [reflexivity|]. split; [reflexivity|]. split; [reflexivity|].
  split; [reflexivity|].
  destruct (POST_extend_rejected Sample.config Further.deadRunCode
              Further.globals Further.withLost O (this Sample.lost)
              (fun _ _ => Some (VError (mkError "sandbox was not found")))
              (VError (mkError "sandbox was not found"))
              eq_refl eq_refl eq_refl eq_refl eq_refl eq_refl)
    as (Hout & Hheap & _).
  split; [exact Hout|exact Hheap].
Defined.

Lemma POST_health_check_answers_witness :
  activeSandbox Further.globals = true /\
  getGlobalTimeoutManager Further.withLost = Some O /\
  heap Further.withLost !! O = Some (this Sample.lost) /\
  exists b s',
    isSandboxActive Sample.config Further.deadRunCode
      (mkState (this Sample.lost) (ambient Further.withLost))
    = (Normal b, s') /\
    POST Sample.config Further.deadRunCode (Normal (Some "health_check"))
      Further.globals Further.withLost
    = (Normal (mkResponse
         (BodyHealth b (if b then "healthy" else "unresponsive")) 200),
       mkRuntime (<[O := this s']> (heap Further.withLost)) (Some O) (amb s')).
Proof.
  split; [reflexivity|]. split; [reflexivity|]. split; [reflexivity|].
  destruct (POST_health_check_answers Sample.config Further.deadRunCode
              Further.globals Further.withLost O (this Sample.lost)
              eq_refl eq_refl eq_refl) as (b & s' & E & Hpost & _).
  exists b, s'. split; [exact E|exact Hpost].
Defined.

Lemma GET_reports_status_before_ping_witness :
  activeSandbox Further.globals = true /\
  getGlobalTimeoutManager Further.withLost = Some O /\
  heap Further.withLost !! O = Some (this Sample.lost) /\
  1 <= optMaxRetries (options (this Sample.lost)) /\
  exists info st rt' m' k,
    GET Sample.config Further.deadRunCode Further.isoOfMillis
      Further.globals Further.withLost
    = (Normal (mkResponse
         (BodyReport info (Some st)
            (Further.isoOfMillis (clock (ambient Further.withLost) (S k))))
         200), rt') /\
    statusLastActivity st = lastActivity (this Sample.lost) /\
    heap rt' !! O = Some m' /\
    (clockReads (ambient Further.withLost) < k)%nat /\
    lastActivity m' = clock (ambient Further.withLost) k.
Proof.
  assert (H : 1 <= optMaxRetries (options (this Sample.lost)))
    by (vm_compute; discriminate).
  split; [reflexivity|]. split; [reflexivity|]. split; [reflexivity|].
  split; [exact H|].
  destruct (GET_reports_status_before_ping Sample.config Further.deadRunCode
              Further.isoOfMillis Further.globals Further.withLost O
              (this Sample.lost) eq_refl eq_refl eq_refl H)
    as (info & st & rt' & m' & k & E & _ & Hs & _ & Hh & Hk & Hl & _).
  exists info, st, rt', m', k. repeat (split; [assumption|]). assumption.
Defined.
